(** * bulletpointer: layered SVG slides

    A shallow embedding of [bulletpointer.go] and the properties of its
    visibility toggle, element lookup and image processing.

    The source holds the program twice: a first draft whose [main] toggles
    one element of one file, and the program that reads a configuration.
    [assertOneElementById] and [setHidden] are the same in both; the model
    is of the second.

    Go strings are byte sequences; they are modelled by [string] (a list of
    8-bit [ascii] characters).  Slices updated by index are lists with
    stdpp's lookup [l !! i] and in-place update [<[i:=x]> l].  Calls to the
    operating system, to the XML and YAML libraries and to the rasterizer
    go through a record of operations on an abstract world; a computation
    returns the world after it, the calls it made and its outcome. *)

From Stdlib Require Import Ascii String DecimalString.
From stdpp Require Import base list strings.

(** ** The [strings] package, as far as the program uses it *)

Module strings.

(** [strings.HasPrefix(s, prefix)]. *)
Definition HasPrefix (s prefix : string) : bool := String.prefix prefix s.

(** [strings.Split(s, sep)] for a separator of one byte, which is how the
    program calls it ([";"]): the string is cut at every occurrence of the
    separator, and the result always has at least one component (the empty
    string splits into one empty component). *)
Fixpoint Split (s : string) (sep : ascii) : list string :=
  match s with
  | EmptyString => [EmptyString]
  | String c s' =>
      if Ascii.eqb c sep then EmptyString :: Split s' sep
      else match Split s' sep with
           | [] => [String c EmptyString]
           | component :: rest => String c component :: rest
           end
  end.

(** [strings.Join(elems, sep)]. *)
Fixpoint Join (elems : list string) (sep : string) : string :=
  match elems with
  | [] => EmptyString
  | [e] => e
  | e :: rest => e +:+ sep +:+ Join rest sep
  end.

(** [strings.ToLower] on the ASCII range.  Bytes from 128 on (parts of
    multi-byte characters) are kept; no character outside [A-Z] has a lower
    case among the bytes of [".svg"], the only string the result is
    compared with. *)
Definition lower (c : ascii) : ascii :=
  let n := nat_of_ascii c in
  if (65 <=? n) && (n <=? 90) then ascii_of_nat (n + 32) else c.

Fixpoint ToLower (s : string) : string :=
  match s with
  | EmptyString => EmptyString
  | String c s' => String (lower c) (ToLower s')
  end.

End strings.

(** ** The element tree, as far as the program uses it

    The program reads and writes attributes of elements and searches the
    whole document for elements by attribute value; it never looks at the
    nesting of elements.  A document is therefore the sequence of its
    elements in the order of the search, and an element reference
    ([*etree.Element]) is a position in that sequence. *)

Module etree.

Record Attr := mkAttr { Key : string; Value : string }.

Record Element := mkElement { Tag : string; Attrs : list Attr }.

Abbreviation Document := (list Element).

Fixpoint findAttr (attrs : list Attr) (key : string) : option string :=
  match attrs with
  | [] => None
  | a :: rest =>
      if String.eqb (Key a) key then Some (Value a) else findAttr rest key
  end.

(** [e.SelectAttrValue(key, dflt)]: the value of the first attribute with
    that key, or the default. *)
Definition SelectAttrValue (e : Element) (key dflt : string) : string :=
  match findAttr (Attrs e) key with
  | Some v => v
  | None => dflt
  end.

Fixpoint setAttr (attrs : list Attr) (key value : string) : list Attr :=
  match attrs with
  | [] => [mkAttr key value]
  | a :: rest =>
      if String.eqb (Key a) key then mkAttr key value :: rest
      else a :: setAttr rest key value
  end.

(** [e.CreateAttr(key, value)]: the attribute with that key gets the value;
    when there is none, one is added after the others. *)
Definition CreateAttr (e : Element) (key value : string) : Element :=
  mkElement (Tag e) (setAttr (Attrs e) key value).

Definition hasId (id : string) (e : Element) : bool :=
  match findAttr (Attrs e) "id" with
  | Some v => String.eqb v id
  | None => false
  end.

Fixpoint findFrom (doc : list Element) (id : string) (pos : nat) : list nat :=
  match doc with
  | [] => []
  | e :: rest =>
      if hasId id e then pos :: findFrom rest id (S pos)
      else findFrom rest id (S pos)
  end.

(** [doc.FindElements("//[@id='<id>']")]: the elements anywhere in the
    document whose [id] attribute has the value [id], each once. *)
Definition FindElementsById (doc : Document) (id : string) : list nat :=
  findFrom doc id 0.

End etree.

Import strings etree.

(** ** [setHidden] *)

(** The loop [for key, component := range attrComponents] of [setHidden],
    from index [key] on, with [n] iterations left. *)
Fixpoint rangeComponents (expectedComponent : string) (key n : nat)
    (attrComponents : list string) (done : bool) : list string * bool :=
  match n with
  | 0 => (attrComponents, done)
  | S n' =>
      match attrComponents !! key with
      | None => (attrComponents, done)
      | Some component =>
          if HasPrefix component "display:" then
            rangeComponents expectedComponent (S key) n'
              (<[key := expectedComponent]> attrComponents) true
          else
            rangeComponents expectedComponent (S key) n' attrComponents done
      end
  end.

(** [setHidden(element, hidden)]; the element is updated in place, so the
    model returns its new state. *)
Definition setHidden (element : Element) (hidden : bool) : Element :=
  let attrValue := SelectAttrValue element "style" "" in
  let attrComponents := Split attrValue ";"%char in
  let expectedComponent :=
    if hidden then "display:none" else "display:inline" in
  let '(attrComponents, done) :=
    rangeComponents expectedComponent 0 (length attrComponents)
      attrComponents false in
  let attrComponents :=
    if negb done then attrComponents ++ [expectedComponent]
    else attrComponents in
  CreateAttr element "style" (Join attrComponents ";").

(** ** The [path/filepath] package on a Unix system *)

Module filepath.

(** [os.IsPathSeparator]. *)
Definition isSeparator (c : ascii) : bool := Ascii.eqb c "/".

(** One path element of [Clean], on the elements kept so far (last one
    first): empty and [.] elements go away, [..] removes the element
    before it, or stays when there is none and the path is not rooted. *)
Definition cleanStep (rooted : bool) (kept : list string) (elem : string)
    : list string :=
  if String.eqb elem "" || String.eqb elem "." then kept
  else if String.eqb elem ".." then
    match kept with
    | [] => if rooted then [] else [".."]
    | top :: below =>
        if String.eqb top ".." then ".." :: kept else below
    end
  else elem :: kept.

(** The cleaned path before the empty result is turned into a dot. *)
Definition cleanBody (path : string) : string :=
  let rooted := HasPrefix path "/" in
  let kept := fold_left (cleanStep rooted) (Split path "/"%char) [] in
  (if rooted then "/" else "") +:+ Join (rev kept) "/".

(** [filepath.Clean(path)]. *)
Definition Clean (path : string) : string :=
  let out := cleanBody path in
  if String.eqb out "" then "." else out.

(** [filepath.Join(elem...)]: empty leading elements are skipped, the rest
    is joined with the separator and cleaned. *)
Fixpoint Join (elem : list string) : string :=
  match elem with
  | [] => ""
  | e :: rest =>
      if String.eqb e "" then Join rest else Clean (strings.Join elem "/")
  end.
#[global] Arguments Join : simpl never.

(** Strip trailing slashes. *)
Fixpoint dropSeparators (rpath : list ascii) : list ascii :=
  match rpath with
  | c :: rest => if isSeparator c then dropSeparators rest else rpath
  | [] => []
  end.

(** Find the last element. *)
Fixpoint lastElement (rpath acc : list ascii) : list ascii :=
  match rpath with
  | c :: rest => if isSeparator c then acc else lastElement rest (c :: acc)
  | [] => acc
  end.

(** [filepath.Base(path)]; the loops run from the end of the path, hence
    over its reversal. *)
Definition Base (path : string) : string :=
  if String.eqb path "" then "."
  else
    let rpath := dropSeparators (rev (list_ascii_of_string path)) in
    let path := string_of_list_ascii (lastElement rpath []) in
    if String.eqb path "" then "/" else path.

(** The loop of [Ext]: back from the end to a dot, or to a separator. *)
Fixpoint extScan (rpath acc : list ascii) : list ascii :=
  match rpath with
  | c :: rest =>
      if isSeparator c then []
      else if Ascii.eqb c "." then c :: acc
      else extScan rest (c :: acc)
  | [] => []
  end.

(** [filepath.Ext(path)]: from the last dot of the last element on. *)
Definition Ext (path : string) : string :=
  string_of_list_ascii (extScan (rev (list_ascii_of_string path)) []).

(** The loop of [Dir]: back from the end to a separator. *)
Fixpoint dropElement (rpath : list ascii) : list ascii :=
  match rpath with
  | c :: rest => if isSeparator c then rpath else dropElement rest
  | [] => []
  end.

(** [filepath.Dir(path)]: all but the last element, cleaned. *)
Definition Dir (path : string) : string :=
  Clean (string_of_list_ascii
           (rev (dropElement (rev (list_ascii_of_string path))))).

End filepath.

(** ** The configuration

    The layers of an image and the images of a configuration are slices of
    pointers in Go; the model has the values, so no entry is nil. *)

(** The toggles of one layer of an image. *)
Record ImageLayer := mkImageLayer {
  Suffix : string;
  HideIDs : list string;
  ShowIDs : list string
}.

(** One SVG file and its layers. *)
Record Image := mkImage {
  Filename : string;
  Layers : list ImageLayer
}.

(** ** The world outside the program *)

(** [fs.FileInfo], as far as the program looks at it: [Mode().IsRegular()]
    and [IsDir()]. *)
Record FileInfo := mkFileInfo { IsRegular : bool; IsDir : bool }.

(** [exec.Cmd], the two fields the program sets. *)
Record Cmd := mkCmd { Path : string; Args : list string }.

(** What the program asks of the operating system and of its libraries.
    An error is [None] for [os.Stat], whose error the program does not look
    at, and the text of [err.Error()] elsewhere.  Writing a file and running
    a command change the world. *)
Record System (World : Type) := mkSystem {
  os_Stat : World → string → option FileInfo;
  os_ReadFile : World → string → string + string;
  yaml_Unmarshal : string → string + list Image;
  doc_ReadFromFile : World → string → string + Document;
  doc_WriteToFile : World → Document → string → World * option string;
  cmd_Run : World → Cmd → World * option string
}.
Arguments os_Stat {World}.
Arguments os_ReadFile {World}.
Arguments yaml_Unmarshal {World}.
Arguments doc_ReadFromFile {World}.
Arguments doc_WriteToFile {World}.
Arguments cmd_Run {World}.

(** The calls the program makes, in the order it makes them. *)
Inductive Event :=
| EvStat (name : string)
| EvReadFile (name : string)
| EvReadFromFile (path : string)
| EvWriteToFile (path : string) (doc : Document)
| EvRun (cmd : Cmd).

(** How a computation ends: with a value, in [log.Fatal] (the message is
    logged and the process exits with status 1), or in a run-time panic. *)
Inductive Outcome (A : Type) :=
| Ok (a : A)
| Fatal (msg : string)
| Panic (msg : string).
Arguments Ok {A}.
Arguments Fatal {A}.
Arguments Panic {A}.

(** [fmt.Sprintf("%d", n)]. *)
Definition itoa (n : nat) : string := NilZero.string_of_uint (Nat.to_uint n).

(** The line feed that ends every message. *)
Definition LF : string := String (ascii_of_nat 10) EmptyString.

(** [s[0:hi]] for a string; Go panics unless [0 <= hi <= len(s)]. *)
Definition slice0 (s : string) (hi : Z) : option string :=
  if ((0 <=? hi) && (hi <=? Z.of_nat (String.length s)))%Z
  then Some (substring 0 (Z.to_nat hi) s) else None.

(** [len(s)], an [int]. *)
Definition len (s : string) : Z := Z.of_nat (String.length s).

(** A computation of the program: from the world before it to the world
    after it, the calls it made and its outcome. *)
Definition M (World : Type) (A : Type) : Type :=
  World → World * list Event * Outcome A.

#[global] Instance M_ret {World} : MRet (M World) := λ A a w, (w, [], Ok a).

#[global] Instance M_bind {World} : MBind (M World) := λ A B f m w,
  match m w with
  | (w1, t1, Ok a) => let '(w2, t2, o) := f a w1 in (w2, t1 ++ t2, o)
  | (w1, t1, Fatal msg) => (w1, t1, Fatal msg)
  | (w1, t1, Panic msg) => (w1, t1, Panic msg)
  end.

(** [log.Fatalf], [log.Fatalln]. *)
Definition fatal {World A} (msg : string) : M World A :=
  λ w, (w, [], Fatal msg).

(** A run-time panic. *)
Definition panic {World A} (msg : string) : M World A :=
  λ w, (w, [], Panic msg).

Section Program.

Context {World : Type} (sys : System World).

#[local] Abbreviation M := (M World).

(** The calls to the outside: each is recorded and answered by the
    system. *)
Definition Stat (name : string) : M (option FileInfo) :=
  λ w, (w, [EvStat name], Ok (os_Stat sys w name)).

Definition ReadFile (name : string) : M (string + string) :=
  λ w, (w, [EvReadFile name], Ok (os_ReadFile sys w name)).

Definition ReadFromFile (path : string) : M (string + Document) :=
  λ w, (w, [EvReadFromFile path], Ok (doc_ReadFromFile sys w path)).

Definition WriteToFile (doc : Document) (path : string)
    : M (option string) :=
  λ w, let '(w', err) := doc_WriteToFile sys w doc path in
       (w', [EvWriteToFile path doc], Ok err).

Definition Run (cmd : Cmd) : M (option string) :=
  λ w, let '(w', err) := cmd_Run sys w cmd in (w', [EvRun cmd], Ok err).

(** [s[0:hi]] in the program. *)
Definition slice (s : string) (hi : Z) : M string :=
  match slice0 s hi with
  | Some s' => mret s'
  | None => panic "slice bounds out of range"
  end.

(** Find the singular element that has the given ID attribute.  If there
    isn't exactly one of them, then fail the entire program.  The search is
    [doc.FindElements(fmt.Sprintf("//[@id='%s']", id))]. *)
Definition assertOneElementById (doc : Document) (id : string) : M nat :=
  let elements := FindElementsById doc id in
  (if negb (length elements =? 1) then
     fatal ("Expected one #" +:+ id +:+ " element; found "
            +:+ itoa (length elements) +:+ LF)
   else mret ());;
  match elements !! 0 with
  | Some element => mret element
  | None => panic "index out of range"
  end.

(** The loops [for _, id := range ids] of [processImageLayer]: each
    element found is toggled in the document. *)
Fixpoint rangeIDs (ids : list string) (hidden : bool) (doc : Document)
    : M Document :=
  match ids with
  | [] => mret doc
  | id :: rest =>
      element ← assertOneElementById doc id;
      rangeIDs rest hidden (alter (λ e, setHidden e hidden) element doc)
  end.

(** Within the context of a specific image layer, hide/show the relevant
    image elements for that particular layer.  The document is shared with
    the caller, which gets its new state. *)
Definition processImageLayer (layer : ImageLayer) (doc : Document)
    (outFile : string) : M Document :=
  doc ← rangeIDs (HideIDs layer) true doc;
  doc ← rangeIDs (ShowIDs layer) false doc;
  err ← WriteToFile doc outFile;
  match err with
  | Some e => fatal ("Problem writing to " +:+ outFile +:+ ": " +:+ e +:+ LF)
  | None => mret ()
  end;;
  stem ← slice outFile (len outFile - 4);
  let outPng := stem +:+ ".png" in
  let cmd := {|
    Path := "/usr/bin/flatpak";
    Args := [ "flatpak"; "run"; "org.inkscape.Inkscape";
              "--export-filename=" +:+ outPng;
              "--export-width=1280";
              "--export-height=720";
              outFile ]
  |} in
  err ← Run cmd;
  match err with
  | Some e =>
      fatal ("Could not convert SVG to PNG with Inkscape: " +:+ e +:+ LF)
  | None => mret doc
  end.

(** The loop [for _, layer := range image.Layers] of [processImage]. *)
Fixpoint rangeLayers (layers : list ImageLayer) (outPrefix outExt : string)
    (outDir : string) (doc : Document) : M unit :=
  match layers with
  | [] => mret ()
  | layer :: rest =>
      let outBase := outPrefix +:+ Suffix layer +:+ outExt in
      let outFile := filepath.Join [outDir; outBase] in
      doc ← processImageLayer layer doc outFile;
      rangeLayers rest outPrefix outExt outDir doc
  end.

(** In the context of an individual SVG file, loop through and apply the
    layering logic to produce individual slides. *)
Definition processImage (image : Image) (inDir outDir : string) : M unit :=
  let inFile := filepath.Join [inDir; Filename image] in
  fileStat ← Stat inFile;
  match fileStat with
  | Some fileStat =>
      if negb (IsRegular fileStat) then
        fatal ("Input file " +:+ inFile +:+ " is not regular file" +:+ LF)
      else mret ()
  | None => fatal ("Source file needs to exist: " +:+ inFile +:+ LF)
  end;;
  let outPrefix := filepath.Base inFile in
  let outExt := filepath.Ext outPrefix in
  outPrefix ← slice outPrefix (len outPrefix - len outExt);
  (if negb (String.eqb (ToLower outExt) ".svg") then
     fatal ("Expected .svg file but got " +:+ inFile +:+ LF)
   else mret ());;
  doc ← ReadFromFile inFile;
  match doc with
  | inl e => fatal ("Error reading SVG XML file: " +:+ e +:+ LF)
  | inr doc => rangeLayers (Layers image) outPrefix outExt outDir doc
  end.

(** The loop [for _, yamlImage := range yamlImages] of [main]. *)
Fixpoint rangeImages (yamlImages : list Image) (inDir outDir : string)
    : M unit :=
  match yamlImages with
  | [] => mret ()
  | yamlImage :: rest =>
      processImage yamlImage inDir outDir;;
      rangeImages rest inDir outDir
  end.

(** Main entry point; [args] is [os.Args]. *)
Definition main (args : list string) : M unit :=
  match args with
  | [_; arg1; arg2] =>
      dirStat ← Stat arg2;
      match dirStat with
      | Some dirStat =>
          if negb (IsDir dirStat) then
            fatal ("Destination should be a directory: " +:+ arg2 +:+ LF)
          else mret ()
      | None => fatal ("Destination dir needs to exist: " +:+ arg2 +:+ LF)
      end;;
      yamlBytes ← ReadFile arg1;
      yamlImages ← match yamlBytes with
        | inr yamlBytes =>
            match yaml_Unmarshal sys yamlBytes with
            | inl e => fatal ("Problem parsing YAML: " +:+ e +:+ LF)
            | inr yamlImages => mret yamlImages
            end
        | inl e => fatal ("Problem reading file: " +:+ e +:+ LF)
        end;
      rangeImages yamlImages (filepath.Dir arg1) arg2
  | _ =>
      fatal ("Usage: bulletpointer /path/to/in.yaml /path/to/out/dir" +:+ LF)
  end.

End Program.

(** ** Notions the properties are stated with *)

(** The style attribute of an element as [setHidden] reads it, and its
    semicolon-delimited components. *)
Definition style (e : Element) : string := SelectAttrValue e "style" "".

Definition components (e : Element) : list string := Split (style e) ";"%char.

(** A component that [setHidden] takes for a display declaration. *)
Definition isDisplay (component : string) : bool :=
  HasPrefix component "display:".

(** The declaration that [setHidden] writes. *)
Definition expected (hidden : bool) : string :=
  if hidden then "display:none" else "display:inline".

(** What the scan of [setHidden] makes of one component. *)
Definition replaceDisplay (expectedComponent component : string) : string :=
  if isDisplay component then expectedComponent else component.

(** [strings.IndexByte(s, b) >= 0]. *)
Fixpoint hasByte (b : ascii) (s : string) : bool :=
  match s with
  | EmptyString => false
  | String c s' => Ascii.eqb c b || hasByte b s'
  end.

(** What the scan and the append after it make of the components. *)
Definition toggled (hidden : bool) (cs : list string) : list string :=
  map (replaceDisplay (expected hidden)) cs
  ++ (if existsb isDisplay cs then [] else [expected hidden]).

(** Leading white space of a component. *)
Fixpoint trimSpace (s : string) : string :=
  match s with
  | String c s' => if Ascii.is_space c then trimSpace s' else s
  | EmptyString => EmptyString
  end.

(** The number of elements of the document that carry the identifier. *)
Definition matches (doc : Document) (id : string) : nat :=
  length (List.filter (hasId id) doc).


(** The toggles of a layer in the order of the specification: the
    identifiers to hide, then the identifiers to show. *)
Definition layerToggles (layer : ImageLayer) : list (string * bool) :=
  map (λ id, (id, true)) (HideIDs layer)
  ++ map (λ id, (id, false)) (ShowIDs layer).

(** One toggle after the other, each on the element that the locator finds
    in the document as the toggles before it left it. *)
Fixpoint applyToggles {World} (toggles : list (string * bool))
    (doc : Document) : M World Document :=
  match toggles with
  | [] => mret doc
  | (id, hidden) :: rest =>
      element ← assertOneElementById doc id;
      applyToggles rest (alter (λ e, setHidden e hidden) element doc)
  end.

(** Files written and commands run. *)
Inductive Output :=
| Wrote (path : string)
| Ran (cmd : Cmd).

Definition output (ev : Event) : option Output :=
  match ev with
  | EvWriteToFile path _ => Some (Wrote path)
  | EvRun cmd => Some (Ran cmd)
  | _ => None
  end.

Definition outputs (t : list Event) : list Output := omap output t.

Definition input (ev : Event) : option string :=
  match ev with
  | EvStat name => Some name
  | EvReadFromFile path => Some path
  | _ => None
  end.

(** The paths given to [os.Stat] and to [ReadFromFile]. *)
Definition inputs (t : list Event) : list string := omap input t.

(** The rasterizer: Inkscape, from the file [outFile] to the file [outPng],
    1280 by 720. *)
Definition rasterize (outFile outPng : string) : Cmd := {|
  Path := "/usr/bin/flatpak";
  Args := [ "flatpak"; "run"; "org.inkscape.Inkscape";
            "--export-filename=" +:+ outPng;
            "--export-width=1280";
            "--export-height=720";
            outFile ]
|}.

(** A source that [processImage] refuses: no such file, not a regular file,
    or an extension other than [.svg] in any case of the letters. *)
Definition badSource {World} (sys : System World) (w : World)
    (inFile : string) : bool :=
  match os_Stat sys w inFile with
  | None => true
  | Some fileStat =>
      negb (IsRegular fileStat)
      || negb (String.eqb (ToLower (filepath.Ext (filepath.Base inFile)))
                 ".svg")
  end.

(** The calls and the outcome of a run. *)
Definition traceOf {World A} (r : World * list Event * Outcome A)
    : list Event := r.1.2.

Definition outcomeOf {World A} (r : World * list Event * Outcome A)
    : Outcome A := r.2.

(** The files of a layer: the vector output and the raster output. *)
Definition layerOutputs (outDir name : string) (layer : ImageLayer)
    : list Output :=
  let svg := filepath.Join [outDir; name +:+ Suffix layer +:+ ".svg"] in
  let png := filepath.Join [outDir; name +:+ Suffix layer +:+ ".png"] in
  [Wrote svg; Ran (rasterize svg png)].

(** ** A small installation to run the program on *)

Module demo.

Definition line1 : Element := mkElement "text" [mkAttr "id" "line1"].

Definition line2 : Element :=
  mkElement "text" [mkAttr "id" "line2";
                    mkAttr "style" "fill:black;display:block"].

Definition red : Element := mkElement "rect" [mkAttr "style" "color:red"].

Definition spaced : Element :=
  mkElement "rect" [mkAttr "style" "color:red; display:none"].

(** A declaration that [setHidden] finds, and one after white space. *)
Definition both : Element :=
  mkElement "rect" [mkAttr "style" "display:block; display:none"].

Definition doc : Document := [mkElement "svg" []; line1; line2].

(** Two elements with one identifier. *)
Definition twice : Document := [mkElement "svg" []; line1; line1].

Definition layer1 : ImageLayer :=
  mkImageLayer "_1" ["line1"; "line2"] ["line1"].

Definition layer2 : ImageLayer := mkImageLayer "_2" [] ["line2"].

Definition pic : Image := mkImage "pic.svg" [layer1; layer2].

Definition missing : Image := mkImage "missing.svg" [layer1].

Definition config : list Image := [pic; missing].

Definition args : list string := ["bulletpointer"; "/cfg/in.yaml"; "/out"].

(** The world is the list of the files written, last one first.  There
    is the directory [/out], the configuration [/cfg/in.yaml] and the
    image [/cfg/pic.svg]; the file [/cfg/missing.svg] is not there. *)
Definition sys : System (list string) := {|
  os_Stat _ name :=
    if String.eqb name "/out" then Some (mkFileInfo false true)
    else if String.eqb name "/cfg/pic.svg" then Some (mkFileInfo true false)
    else None;
  os_ReadFile _ name :=
    if String.eqb name "/cfg/in.yaml" then inr "images"
    else inl "no such file or directory";
  yaml_Unmarshal yamlBytes :=
    if String.eqb yamlBytes "images" then inr config
    else inl "cannot unmarshal";
  doc_ReadFromFile _ path :=
    if String.eqb path "/cfg/pic.svg" then inr doc
    else inl "no such file or directory";
  doc_WriteToFile w _ path := (path :: w, None);
  cmd_Run w _ := (w, None)
|}.

(** The document after the first layer. *)
Definition doc1 : Document :=
  [ mkElement "svg" [];
    mkElement "text" [mkAttr "id" "line1";
                      mkAttr "style" ";display:inline"];
    mkElement "text" [mkAttr "id" "line2";
                      mkAttr "style" "fill:black;display:none"] ].

(** The run of the first image. *)
Definition run1 : list string * list Event * Outcome unit :=
  Eval vm_compute in rangeImages sys [pic] "/cfg" "/out" [].

End demo.

(** ** The first draft of the program

    Its [main] hides the element [line1] of one file and writes the result
    to [/tmp/out.svg]; a document that does not load is a panic, and the
    error of the write is not looked at. *)

Module draft.

Definition file : string :=
  "/home/louis/OneDrive/Videos/Interview Take 3/titles/Question1AllBullets.svg".

Section Main.

Context {World : Type} (sys : System World).

Definition main : M World unit :=
  doc ← ReadFromFile sys file;
  match doc with
  | inl err => panic err
  | inr doc =>
      element ← assertOneElementById doc "line1";
      let doc := alter (λ e, setHidden e true) element doc in
      WriteToFile sys doc "/tmp/out.svg";;
      mret ()
  end.

End Main.

End draft.

(** ** More notions *)

(** An element whose style says [display:none] ([hidden] true) or
    [display:inline] ([hidden] false): there is such a component, and every
    component that starts with ["display:"] is that one. *)
Definition displays (hidden : bool) (e : Element) : Prop :=
  expected hidden ∈ components e
  ∧ ∀ c, c ∈ components e → isDisplay c = true → c = expected hidden.

(** The message of [assertOneElementById]. *)
Definition expectedOne (id : string) (found : nat) : string :=
  "Expected one #" +:+ id +:+ " element; found " +:+ itoa found +:+ LF.

(** The documents written, with their paths. *)
Definition written (ev : Event) : option (string * Document) :=
  match ev with
  | EvWriteToFile path doc => Some (path, doc)
  | _ => None
  end.

Definition writes (t : list Event) : list (string * Document) :=
  omap written t.

(** A run that ends in a run-time panic. *)
Definition panics {World A} (r : World * list Event * Outcome A) : Prop :=
  ∃ msg, outcomeOf r = Panic msg.

(** What [processImage] makes of the name of its source: the base name
    without its extension, and the extension. *)
Definition outExtOf (inFile : string) : string :=
  filepath.Ext (filepath.Base inFile).

Definition outPrefixOf (inFile : string) : string :=
  let base := filepath.Base inFile in
  substring 0 (String.length base - String.length (outExtOf inFile)) base.

(** The outputs of an image: for each layer the vector file, named after
    the source with its extension as it is, and the run of the rasterizer
    to the file with the extension [.png]. *)
Definition imageOutputs (inDir outDir : string) (image : Image)
    : list Output :=
  let inFile := filepath.Join [inDir; Filename image] in
  flat_map
    (λ layer,
       let svg :=
         filepath.Join
           [outDir; outPrefixOf inFile +:+ Suffix layer +:+ outExtOf inFile] in
       let png :=
         filepath.Join
           [outDir; outPrefixOf inFile +:+ Suffix layer +:+ ".png"] in
       [Wrote svg; Ran (rasterize svg png)])
    (Layers image).

(** ** Installations with other files and with failures *)

Module fixture.

Fixpoint assoc (files : list (string * Document)) (path : string)
    : option Document :=
  match files with
  | [] => None
  | (name, doc) :: rest =>
      if String.eqb name path then Some doc else assoc rest path
  end.

(** The directory [/out], the configuration [/cfg/in.yaml] that holds
    [config], the given documents, and the given errors of the write and of
    the rasterizer.  The world is the list of the files written. *)
Definition system (config : list Image) (files : list (string * Document))
    (writeErr runErr : option string) : System (list string) := {|
  os_Stat _ name :=
    if String.eqb name "/out" then Some (mkFileInfo false true)
    else match assoc files name with
         | Some _ => Some (mkFileInfo true false)
         | None => None
         end;
  os_ReadFile _ name :=
    if String.eqb name "/cfg/in.yaml" then inr "images"
    else inl "no such file or directory";
  yaml_Unmarshal yamlBytes :=
    if String.eqb yamlBytes "images" then inr config
    else inl "cannot unmarshal";
  doc_ReadFromFile _ path :=
    match assoc files path with
    | Some doc => inr doc
    | None => inl "no such file or directory"
    end;
  doc_WriteToFile w _ path :=
    (match writeErr with None => path :: w | Some _ => w end, writeErr);
  cmd_Run w _ := (w, runErr)
|}.

Definition readOnly : System (list string) :=
  system [demo.pic] [("/cfg/pic.svg", demo.doc)]
    (Some "permission denied") None.

Definition noInkscape : System (list string) :=
  system [demo.pic] [("/cfg/pic.svg", demo.doc)]
    None (Some "exit status 1").

(** A layer with an identifier that no element has. *)
Definition badLayer : ImageLayer := mkImageLayer "_x" ["line1"] ["line9"].

(** An image with the extension in capitals. *)
Definition upper : Image := mkImage "Pic.SVG" [demo.layer1].

Definition upperSys : System (list string) :=
  system [upper] [("/cfg/Pic.SVG", demo.doc)] None None.

Definition upperRun : list string * list Event * Outcome unit :=
  Eval vm_compute in processImage upperSys upper "/cfg" "/out" [].

(** Three layers: the second hides [line2], the third does not name it. *)
Definition layerA : ImageLayer := mkImageLayer "_0" [] ["line2"].
Definition layerB : ImageLayer := mkImageLayer "_1" ["line2"] [].
Definition layerC : ImageLayer := mkImageLayer "_2" ["line1"] [].

Definition three : Image := mkImage "pic.svg" [layerA; layerB; layerC].

Definition threeSys : System (list string) :=
  system [three] [("/cfg/pic.svg", demo.doc)] None None.

Definition threeRun : list string * list Event * Outcome unit :=
  Eval vm_compute in processImage threeSys three "/cfg" "/out" [].

Definition mainRun : list string * list Event * Outcome unit :=
  Eval vm_compute in main threeSys demo.args [].

(** The document after the toggles of [line1] and [line2] to hidden. *)
Definition hiddenDoc : Document :=
  [ mkElement "svg" [];
    mkElement "text" [mkAttr "id" "line1"; mkAttr "style" ";display:none"];
    mkElement "text" [mkAttr "id" "line2";
                      mkAttr "style" "fill:black;display:none"] ].

(** An image with a layer without suffix, put out where the source is. *)
Definition plainLayer : ImageLayer := mkImageLayer "" ["line1"] [].

Definition plain : Image := mkImage "pic.svg" [plainLayer].

Definition plainRun : list string * list Event * Outcome unit :=
  Eval vm_compute in processImage threeSys plain "/cfg" "/cfg" [].

(** The document after [layerB]. *)
Definition docB : Document :=
  [ mkElement "svg" [];
    mkElement "text" [mkAttr "id" "line1"];
    mkElement "text" [mkAttr "id" "line2";
                      mkAttr "style" "fill:black;display:none"] ].

(** Installations for the first draft: its file is not there, has two
    elements [line1], or is there with a write that fails. *)
Definition draftNoFile : System (list string) := system [] [] None None.

Definition draftTwice : System (list string) :=
  system [] [(draft.file, demo.twice)] None None.

Definition draftReadOnly : System (list string) :=
  system [] [(draft.file, demo.doc)] (Some "permission denied") None.

End fixture.

(** * Properties *)

(** ** The model on examples *)

Example Split_ex1 :
  Split "fill:black;;display:none;" ";"
  = ["fill:black"; ""; "display:none"; ""].
Proof. reflexivity. Qed.

Example Split_ex2 : Split "" ";" = [""].
Proof. reflexivity. Qed.

Example Join_ex : Join ["a"; ""; "b"] ";" = "a;;b".
Proof. reflexivity. Qed.

Example ToLower_ex : ToLower ".SvG" = ".svg".
Proof. reflexivity. Qed.

Example setHidden_ex1 :
  style (setHidden demo.line2 false) = "fill:black;display:inline".
Proof. reflexivity. Qed.

Example setHidden_ex2 :
  setHidden (mkElement "g" [mkAttr "style" "display:block;a:b;display:x";
                            mkAttr "id" "g1"]) true
  = mkElement "g" [mkAttr "style" "display:none;a:b;display:none";
                   mkAttr "id" "g1"].
Proof. reflexivity. Qed.

Example itoa_ex : itoa 0 = "0" ∧ itoa 12 = "12".
Proof. split; reflexivity. Qed.

Example Clean_ex1 : filepath.Clean "a//b/./c/../d/" = "a/b/d".
Proof. reflexivity. Qed.
Example Clean_ex2 : filepath.Clean "/../a/.." = "/".
Proof. reflexivity. Qed.
Example Clean_ex3 : filepath.Clean "../../a/../../b" = "../../../b".
Proof. reflexivity. Qed.
Example Clean_ex4 : filepath.Clean "" = ".".
Proof. reflexivity. Qed.
Example Join_ex1 : filepath.Join ["/out/"; "pic_1.svg"] = "/out/pic_1.svg".
Proof. reflexivity. Qed.
Example Join_ex2 : filepath.Join [""; "pic_1.svg"] = "pic_1.svg".
Proof. reflexivity. Qed.
Example Base_ex1 : filepath.Base "/in/sub/pic.svg" = "pic.svg".
Proof. reflexivity. Qed.
Example Base_ex2 : filepath.Base "///" = "/".
Proof. reflexivity. Qed.
Example Ext_ex1 : filepath.Ext "pic.old.SVG" = ".SVG".
Proof. reflexivity. Qed.
Example Ext_ex2 : filepath.Ext "a.b/pic" = "".
Proof. reflexivity. Qed.
Example Dir_ex1 : filepath.Dir "/cfg/slides/in.yaml" = "/cfg/slides".
Proof. reflexivity. Qed.
Example Dir_ex2 : filepath.Dir "in.yaml" = ".".
Proof. reflexivity. Qed.

Example main_ex :
  outputs (traceOf (main demo.sys demo.args []))
  = [ Wrote "/out/pic_1.svg";
      Ran (rasterize "/out/pic_1.svg" "/out/pic_1.png");
      Wrote "/out/pic_2.svg";
      Ran (rasterize "/out/pic_2.svg" "/out/pic_2.png") ]
  ∧ outcomeOf (main demo.sys demo.args [])
    = Fatal ("Source file needs to exist: /cfg/missing.svg" +:+ LF).
Proof. split; reflexivity. Qed.

Example main_usage :
  main demo.sys ["bulletpointer"; "/cfg/in.yaml"] []
  = ([], [],
     Fatal ("Usage: bulletpointer /path/to/in.yaml /path/to/out/dir" +:+ LF)).
Proof. reflexivity. Qed.

(** ** Splitting and joining *)

Lemma Split_nonempty s sep : Split s sep ≠ [].
Proof.
  destruct s as [|c s]; simpl; [done|].
  destruct (Ascii.eqb c sep); [done|].
  by destruct (Split s sep).
Qed.

Lemma Split_cons s sep : ∃ head rest, Split s sep = head :: rest.
Proof.
  pose proof (Split_nonempty s sep) as Hne.
  destruct (Split s sep) as [|head rest]; [done|eauto].
Qed.

Lemma Split_no_sep s sep :
  Forall (λ component, hasByte sep component = false) (Split s sep).
Proof.
  induction s as [|c s IH]; simpl.
  - by repeat constructor.
  - destruct (Ascii.eqb c sep) eqn:Hc.
    + by constructor.
    + destruct (Split s sep) as [|head rest]; simpl.
      * repeat constructor. simpl. by rewrite Hc.
      * inversion IH; subst. constructor; [|done]. simpl. by rewrite Hc.
Qed.

Lemma append_String c s t : String c s +:+ t = String c (s +:+ t).
Proof. done. Qed.

Lemma append_empty_l t : "" +:+ t = t.
Proof. done. Qed.

Lemma append_empty_r s : s +:+ "" = s.
Proof. induction s as [|c s IH]; [done|]. by rewrite append_String, IH. Qed.

Lemma append_assoc s t u : (s +:+ t) +:+ u = s +:+ t +:+ u.
Proof. induction s as [|c s IH]; [done|]. by rewrite !append_String, IH. Qed.

Lemma Join_cons e rest sep :
  rest ≠ [] → Join (e :: rest) sep = e +:+ sep +:+ Join rest sep.
Proof. by destruct rest. Qed.

(** Splitting a component without separator, followed by a separator and
    more text, puts the component first. *)
Lemma Split_app_sep e s sep :
  hasByte sep e = false →
  Split (e +:+ String sep s) sep = e :: Split s sep.
Proof.
  induction e as [|c e IH]; simpl; intros He.
  - by rewrite Ascii.eqb_refl.
  - apply orb_false_iff in He as [Hc He]. by rewrite Hc, IH.
Qed.

Lemma Split_no_sep_id e sep : hasByte sep e = false → Split e sep = [e].
Proof.
  induction e as [|c e IH]; simpl; intros He; [done|].
  apply orb_false_iff in He as [Hc He]. by rewrite Hc, IH.
Qed.

(** Joining and splitting again gives the components back. *)
Lemma Split_Join l sep :
  l ≠ [] →
  Forall (λ component, hasByte sep component = false) l →
  Split (Join l (String sep "")) sep = l.
Proof.
  induction l as [|e rest IH]; [done|]. intros _ Hall.
  inversion Hall as [|? ? He Hrest]; subst.
  destruct rest as [|e' rest'].
  - simpl. by apply Split_no_sep_id.
  - rewrite Join_cons by done. rewrite append_String, append_empty_l.
    rewrite Split_app_sep by done. f_equal. by apply IH.
Qed.

Lemma Join_Split s sep : Join (Split s sep) (String sep "") = s.
Proof.
  induction s as [|c s IH]; [done|]. simpl.
  destruct (Ascii.eqb_spec c sep) as [->|Hne].
  - destruct (Split_cons s sep) as (head & rest & Hs).
    rewrite Join_cons by (by rewrite Hs). by rewrite IH.
  - destruct (Split s sep) as [|head rest] eqn:Hs.
    + by apply Split_nonempty in Hs.
    + destruct rest as [|r rest].
      * simpl in *. by rewrite IH.
      * rewrite Join_cons by done. rewrite Join_cons in IH by done.
        by rewrite append_String, IH.
Qed.

(** ** Attributes *)

Lemma findAttr_setAttr attrs key value :
  findAttr (setAttr attrs key value) key = Some value.
Proof.
  induction attrs as [|a attrs IH]; simpl.
  - by rewrite String.eqb_refl.
  - destruct (String.eqb (Key a) key) eqn:Ha; simpl.
    + by rewrite String.eqb_refl.
    + by rewrite Ha.
Qed.

Lemma findAttr_setAttr_ne attrs key key' value :
  key ≠ key' →
  findAttr (setAttr attrs key value) key' = findAttr attrs key'.
Proof.
  intros Hne. induction attrs as [|a attrs IH]; simpl.
  - by destruct (String.eqb_spec key key').
  - destruct (String.eqb_spec (Key a) key) as [Ha|Ha]; simpl.
    + rewrite Ha. by destruct (String.eqb_spec key key').
    + by rewrite IH.
Qed.

Lemma setAttr_setAttr attrs key value value' :
  setAttr (setAttr attrs key value) key value' = setAttr attrs key value'.
Proof.
  induction attrs as [|a attrs IH]; simpl.
  - by rewrite String.eqb_refl.
  - destruct (String.eqb (Key a) key) eqn:Ha; simpl.
    + by rewrite String.eqb_refl.
    + by rewrite Ha, IH.
Qed.

Lemma style_CreateAttr e value : style (CreateAttr e "style" value) = value.
Proof. unfold style, SelectAttrValue. simpl. by rewrite findAttr_setAttr. Qed.

Lemma CreateAttr_CreateAttr e key value value' :
  CreateAttr (CreateAttr e key value) key value' = CreateAttr e key value'.
Proof. unfold CreateAttr. simpl. by rewrite setAttr_setAttr. Qed.

(** ** The scan of [setHidden] *)

Lemma rangeComponents_spec expectedComponent l1 l2 done :
  rangeComponents expectedComponent (length l1) (length l2) (l1 ++ l2) done
  = (l1 ++ map (replaceDisplay expectedComponent) l2,
     done || existsb isDisplay l2).
Proof.
  revert l1 done. induction l2 as [|c l2 IH]; intros l1 done; simpl.
  - by rewrite orb_false_r.
  - rewrite list_lookup_middle by done.
    unfold replaceDisplay at 1. unfold isDisplay at 1 2.
    destruct (HasPrefix c "display:") eqn:Hc.
    + replace (<[length l1:=expectedComponent]> (l1 ++ c :: l2))
        with ((l1 ++ [expectedComponent]) ++ l2).
      2:{ rewrite <- (Nat.add_0_r (length l1)), insert_app_r.
          simpl. by rewrite <- app_assoc. }
      replace (S (length l1)) with (length (l1 ++ [expectedComponent]))
        by (rewrite length_app; simpl; lia).
      rewrite IH, <- app_assoc. simpl. by rewrite orb_true_r.
    + replace (l1 ++ c :: l2) with ((l1 ++ [c]) ++ l2)
        by (by rewrite <- app_assoc).
      replace (S (length l1)) with (length (l1 ++ [c]))
        by (rewrite length_app; simpl; lia).
      rewrite IH, <- app_assoc. done.
Qed.

Lemma setHidden_eq e hidden :
  setHidden e hidden
  = CreateAttr e "style" (Join (toggled hidden (components e)) ";").
Proof.
  unfold setHidden, components, style, toggled.
  set (cs := Split (SelectAttrValue e "style" "") ";").
  fold (expected hidden).
  pose proof (rangeComponents_spec (expected hidden) [] cs false) as Hscan.
  simpl in Hscan. rewrite Hscan.
  destruct (existsb isDisplay cs); simpl; [|done].
  by rewrite app_nil_r.
Qed.

Lemma expected_isDisplay hidden : isDisplay (expected hidden) = true.
Proof. by destruct hidden. Qed.

Lemma expected_no_sep hidden : hasByte ";" (expected hidden) = false.
Proof. by destruct hidden. Qed.

Lemma toggled_nonempty hidden cs : cs ≠ [] → toggled hidden cs ≠ [].
Proof. by destruct cs. Qed.

Lemma toggled_no_sep hidden cs :
  Forall (λ c, hasByte ";" c = false) cs →
  Forall (λ c, hasByte ";" c = false) (toggled hidden cs).
Proof.
  intros Hcs. unfold toggled. apply Forall_app. split.
  - apply Forall_fmap. eapply Forall_impl; [exact Hcs|]. simpl.
    intros c Hc. unfold replaceDisplay.
    destruct (isDisplay c); [apply expected_no_sep|done].
  - destruct (existsb isDisplay cs); constructor; [|done].
    apply expected_no_sep.
Qed.

(** The components of the style after [setHidden]. *)
Lemma components_setHidden e hidden :
  components (setHidden e hidden) = toggled hidden (components e).
Proof.
  rewrite setHidden_eq. unfold components at 1. rewrite style_CreateAttr.
  apply (Split_Join _ ";"%char).
  - apply toggled_nonempty, Split_nonempty.
  - apply toggled_no_sep, Split_no_sep.
Qed.

Lemma toggled_has_display hidden cs :
  existsb isDisplay (toggled hidden cs) = true.
Proof.
  unfold toggled. rewrite existsb_app.
  destruct (existsb isDisplay cs) eqn:Hcs.
  - rewrite orb_false_r. apply existsb_exists in Hcs as (c & Hin & Hc).
    apply existsb_exists. exists (expected hidden). split.
    + apply in_map_iff. exists c. split; [|done].
      unfold replaceDisplay. by rewrite Hc.
    + apply expected_isDisplay.
  - simpl. by rewrite expected_isDisplay, !orb_true_r.
Qed.

Lemma replaceDisplay_isDisplay hidden c :
  isDisplay (replaceDisplay (expected hidden) c) = isDisplay c.
Proof.
  unfold replaceDisplay. destruct (isDisplay c) eqn:Hc; [|done].
  apply expected_isDisplay.
Qed.

(** A second toggle only replaces: nothing is appended any more. *)
Lemma toggled_toggled hidden hidden' cs :
  toggled hidden' (toggled hidden cs)
  = map (replaceDisplay (expected hidden')) (toggled hidden cs).
Proof.
  unfold toggled at 1. by rewrite toggled_has_display, app_nil_r.
Qed.

Lemma toggled_elem hidden hidden' cs c :
  c ∈ map (replaceDisplay (expected hidden')) (toggled hidden cs) →
  isDisplay c = true → c = expected hidden'.
Proof.
  intros Hin Hc. apply list_elem_of_fmap in Hin as (c0 & -> & _).
  unfold replaceDisplay in *. destruct (isDisplay c0) eqn:H0; [done|].
  congruence.
Qed.

Lemma toggled_fix hidden cs :
  map (replaceDisplay (expected hidden)) (toggled hidden cs)
  = toggled hidden cs.
Proof.
  unfold toggled. rewrite map_app, map_map. f_equal.
  - apply map_ext. intros c. unfold replaceDisplay at 1.
    rewrite replaceDisplay_isDisplay. unfold replaceDisplay.
    by destruct (isDisplay c).
  - destruct (existsb isDisplay cs); [done|]. simpl.
    unfold replaceDisplay. by rewrite expected_isDisplay.
Qed.

Lemma Join_snoc l e sep :
  l ≠ [] → Join (l ++ [e]) sep = Join l sep +:+ sep +:+ e.
Proof.
  induction l as [|x l IH]; [done|]. intros _.
  destruct l as [|y l].
  - done.
  - change ((x :: y :: l) ++ [e]) with (x :: ((y :: l) ++ [e])).
    rewrite !Join_cons by done. rewrite IH by done.
    by rewrite !append_assoc.
Qed.

(** ** The visibility toggle *)

(** C1, as the code has it: on an element without style attribute
    [setHidden(e, true)] leaves the style [";display:none"], the empty
    component of the empty style followed by the appended declaration; on an
    element whose style is ["color:red"] it leaves
    ["color:red;display:none"]. *)
Theorem C1_setHidden_hide_examples (e : Element) :
  (findAttr (Attrs e) "style" = None →
   style (setHidden e true) = ";display:none")
  ∧ (findAttr (Attrs e) "style" = Some "color:red" →
     style (setHidden e true) = "color:red;display:none").
Proof.
  split; intros Hstyle; rewrite setHidden_eq, style_CreateAttr;
    unfold components, style, SelectAttrValue; by rewrite Hstyle.
Qed.

(** C2: [setHidden(e, h)] puts the new declaration in the place of every
    component that starts with ["display:"], keeps every other component
    where it is, appends the declaration when no component was replaced, and
    sets the style attribute in every case: after it the element has a
    style attribute, with the value made of these components. *)
Theorem C2_setHidden_replaces_every_display (e : Element) (h : bool) :
  components (setHidden e h)
  = map (λ c, if HasPrefix c "display:" then expected h else c) (components e)
    ++ (if existsb (λ c, HasPrefix c "display:") (components e)
        then [] else [expected h])
  ∧ findAttr (Attrs (setHidden e h)) "style"
    = Some (style (setHidden e h)).
Proof.
  split.
  - apply components_setHidden.
  - rewrite setHidden_eq, style_CreateAttr. simpl. apply findAttr_setAttr.
Qed.

(** C4: hiding twice is hiding once, for the style attribute and for the
    whole element. *)
Theorem C4_setHidden_idempotent (e : Element) :
  style (setHidden (setHidden e true) true) = style (setHidden e true)
  ∧ setHidden (setHidden e true) true = setHidden e true.
Proof.
  assert (setHidden (setHidden e true) true = setHidden e true) as Heq.
  { rewrite (setHidden_eq (setHidden e true)), components_setHidden.
    rewrite toggled_toggled, toggled_fix.
    rewrite (setHidden_eq e) at 1. rewrite CreateAttr_CreateAttr.
    by rewrite <- setHidden_eq. }
  by rewrite Heq.
Qed.


(** C10, as the code has it: a component in which white space comes before
    [display:] is not taken for a display declaration and stays where it
    is.  When no component starts with ["display:"], the new declaration is
    appended after the components, which are all kept; when some component
    does, the new declaration is put in the place of every such component
    and nothing is appended.  In both cases the style has two display
    declarations: the one after white space and the new one, in another
    place. *)
Theorem C10_setHidden_space_before_display
    (e : Element) (h : bool) (k : nat) (c : string) :
  components e !! k = Some c →
  trimSpace c ≠ c →
  isDisplay (trimSpace c) = true →
  isDisplay c = false
  ∧ components (setHidden e h) !! k = Some c
  ∧ (∃ k', k' ≠ k
           ∧ components (setHidden e h) !! k' = Some (expected h))
  ∧ (existsb isDisplay (components e) = false →
     components (setHidden e h) = components e ++ [expected h]
     ∧ style (setHidden e h) = style e +:+ ";" +:+ expected h)
  ∧ (existsb isDisplay (components e) = true →
     components (setHidden e h)
     = map (λ d, if isDisplay d then expected h else d) (components e)
     ∧ length (components (setHidden e h)) = length (components e)).
Proof.
  intros Hk Htrim Hdecl.
  assert (isDisplay c = false) as Hc.
  { destruct c as [|w rest]; [done|]. simpl in Htrim, Hdecl.
    destruct (Ascii.is_space w) eqn:Hw; [|done].
    change (isDisplay (String w rest))
      with (if ascii_dec "d" w then String.prefix "isplay:" rest else false).
    destruct (ascii_dec "d" w) as [<-|]; [discriminate Hw|done]. }
  assert (components (setHidden e h) !! k = Some c) as Hk'.
  { rewrite components_setHidden. unfold toggled.
    rewrite lookup_app_l by
      (rewrite length_map; by apply lookup_lt_Some in Hk).
    rewrite list_lookup_fmap, Hk. simpl. unfold replaceDisplay.
    by rewrite Hc. }
  assert (existsb isDisplay (components e) = false →
          map (replaceDisplay (expected h)) (components e) = components e)
    as Hkept.
  { intros Hnone. rewrite <- (map_id (components e)) at 2.
    apply map_ext_in. intros d Hd. unfold replaceDisplay.
    destruct (isDisplay d) eqn:Hdd; [|done].
    assert (existsb isDisplay (components e) = true); [|congruence].
    apply existsb_exists. eauto. }
  split; [done|]. split; [done|]. split; [|split].
  - pose proof (toggled_has_display h (components e)) as Hex.
    rewrite <- components_setHidden in Hex.
    apply existsb_exists in Hex as (d & Hin & Hd).
    apply list_elem_of_In, list_elem_of_lookup in Hin as [k' Hin].
    exists k'. split; [congruence|].
    rewrite Hin. f_equal.
    rewrite components_setHidden in Hin.
    apply list_elem_of_lookup_2 in Hin. rewrite <- toggled_fix in Hin.
    apply list_elem_of_fmap in Hin as (d0 & -> & _).
    unfold replaceDisplay in *. destruct (isDisplay d0) eqn:Hd0; [done|].
    congruence.
  - intros Hnone. split.
    + rewrite components_setHidden. unfold toggled.
      by rewrite Hnone, (Hkept Hnone).
    + rewrite setHidden_eq, style_CreateAttr. unfold toggled.
      rewrite Hnone, (Hkept Hnone).
      rewrite Join_snoc by apply Split_nonempty.
      unfold components. by rewrite (Join_Split _ ";"%char).
  - intros Hsome.
    assert (components (setHidden e h)
            = map (λ d, if isDisplay d then expected h else d)
                (components e)) as Heq.
    { rewrite components_setHidden. unfold toggled.
      by rewrite Hsome, app_nil_r. }
    split; [done|]. by rewrite Heq, length_map.
Qed.

(** ** The element locator *)

Lemma findFrom_length doc id pos :
  length (findFrom doc id pos) = matches doc id.
Proof.
  unfold matches. revert pos. induction doc as [|e doc IH]; intros pos; simpl.
  - done.
  - destruct (hasId id e); simpl; by rewrite IH.
Qed.

Lemma findFrom_elem doc id pos i :
  i ∈ findFrom doc id pos
  ↔ ∃ j e, i = pos + j ∧ doc !! j = Some e ∧ hasId id e = true.
Proof.
  revert pos. induction doc as [|e doc IH]; intros pos; simpl.
  - split; [by intros ?%elem_of_nil|]. by intros (j & e & _ & ? & _).
  - assert (i ∈ findFrom doc id (S pos)
            ↔ ∃ j e', i = pos + S j ∧ doc !! j = Some e'
                      ∧ hasId id e' = true) as Hrest.
    { rewrite IH. by setoid_rewrite Nat.add_succ_r. }
    destruct (hasId id e) eqn:He.
    + rewrite elem_of_cons, Hrest. split.
      * intros [->|(j & e' & -> & Hj & He')].
        -- exists 0, e. by rewrite Nat.add_0_r.
        -- by exists (S j), e'.
      * intros (j & e' & -> & Hj & He'). destruct j as [|j].
        -- left. lia.
        -- right. by exists j, e'.
    + rewrite Hrest. split.
      * intros (j & e' & -> & Hj & He'). by exists (S j), e'.
      * intros (j & e' & -> & Hj & He'). destruct j as [|j].
        -- simpl in Hj. congruence.
        -- by exists j, e'.
Qed.

Lemma FindElementsById_elem doc id i :
  i ∈ FindElementsById doc id
  ↔ ∃ e, doc !! i = Some e ∧ hasId id e = true.
Proof.
  unfold FindElementsById. rewrite findFrom_elem. split.
  - intros (j & e & -> & ? & ?). by exists e.
  - intros (e & ? & ?). by exists i, e.
Qed.

Section Locator.

Context {World : Type}.

Lemma assertOneElementById_found (doc : Document) id i (w : World) :
  FindElementsById doc id = [i] →
  assertOneElementById doc id w = (w, [], Ok i).
Proof. intros Hfind. unfold assertOneElementById. by rewrite Hfind. Qed.

Lemma assertOneElementById_fatal (doc : Document) id (w : World) :
  matches doc id ≠ 1 →
  assertOneElementById doc id w
  = (w, [], Fatal ("Expected one #" +:+ id +:+ " element; found "
                   +:+ itoa (matches doc id) +:+ LF)).
Proof.
  intros Hn. unfold assertOneElementById, FindElementsById.
  rewrite findFrom_length.
  destruct (Nat.eqb_spec (matches doc id) 1) as [|_]; done.
Qed.

Lemma assertOneElementById_Ok (doc : Document) id i (w w' : World) t :
  assertOneElementById doc id w = (w', t, Ok i) →
  FindElementsById doc id = [i] ∧ w' = w ∧ t = [].
Proof.
  unfold assertOneElementById.
  destruct (FindElementsById doc id) as [|i' [|i'' rest]]; simpl;
    intros Heq; try discriminate Heq.
  by inversion Heq.
Qed.

(** C3: when exactly one element of the document carries the identifier,
    the locator returns it, and it returns nothing in any other case: with
    no such element or with several it ends the program with a message
    that has the identifier and the number of elements found. *)
Theorem C3_assertOneElementById_unique
    (doc : Document) (id : string) (w : World) :
  (matches doc id = 1 →
   ∃ i e, assertOneElementById doc id w = (w, [], Ok i)
          ∧ doc !! i = Some e ∧ hasId id e = true
          ∧ ∀ j e', doc !! j = Some e' → hasId id e' = true → j = i)
  ∧ (matches doc id ≠ 1 →
     assertOneElementById doc id w
     = (w, [], Fatal ("Expected one #" +:+ id +:+ " element; found "
                      +:+ itoa (matches doc id) +:+ LF)))
  ∧ (∀ i w' t, assertOneElementById doc id w = (w', t, Ok i) →
     matches doc id = 1).
Proof.
  split; [|split].
  - intros Hone. rewrite <- (findFrom_length doc id 0) in Hone.
    fold (FindElementsById doc id) in Hone.
    destruct (FindElementsById doc id) as [|i [|? ?]] eqn:Hfind;
      try discriminate Hone.
    assert (i ∈ FindElementsById doc id) as Hi by (rewrite Hfind; by left).
    apply FindElementsById_elem in Hi as (e & Hi & He).
    exists i, e. split; [by apply assertOneElementById_found|].
    split; [done|]. split; [done|].
    intros j e' Hj He'.
    assert (j ∈ FindElementsById doc id) as Hin
      by (apply FindElementsById_elem; eauto).
    rewrite Hfind in Hin. by apply list_elem_of_singleton in Hin.
  - apply assertOneElementById_fatal.
  - intros i w' t Hok. apply assertOneElementById_Ok in Hok as (Hfind & _).
    rewrite <- (findFrom_length doc id 0).
    fold (FindElementsById doc id). by rewrite Hfind.
Qed.

End Locator.

(** ** Running computations *)

Section Running.

Context {World : Type}.

Lemma bind_Ok {A B} (m : M World A) (f : A → M World B) w w' t b :
  (m ≫= f) w = (w', t, Ok b) →
  ∃ a w1 t1 t2,
    m w = (w1, t1, Ok a) ∧ f a w1 = (w', t2, Ok b) ∧ t = t1 ++ t2.
Proof.
  unfold mbind, M_bind.
  destruct (m w) as [[w1 t1] [a|msg|msg]]; try discriminate.
  destruct (f a w1) as [[w2 t2] o] eqn:Hf.
  intros [= <- <- ->]. by exists a, w1, t1, t2.
Qed.

Lemma bind_run_Ok {A B} (m : M World A) (f : A → M World B) w w1 t1 a :
  m w = (w1, t1, Ok a) →
  (m ≫= f) w = (let '(w2, t2, o) := f a w1 in (w2, t1 ++ t2, o)).
Proof. intros Hm. unfold mbind, M_bind. by rewrite Hm. Qed.

Lemma bind_run_Fatal {A B} (m : M World A) (f : A → M World B) w w1 t1 msg :
  m w = (w1, t1, Fatal msg) → (m ≫= f) w = (w1, t1, Fatal msg).
Proof. intros Hm. unfold mbind, M_bind. by rewrite Hm. Qed.

Lemma bind_run_Panic {A B} (m : M World A) (f : A → M World B) w w1 t1 msg :
  m w = (w1, t1, Panic msg) → (m ≫= f) w = (w1, t1, Panic msg).
Proof. intros Hm. unfold mbind, M_bind. by rewrite Hm. Qed.

End Running.

(** ** Toggles of a layer *)

Lemma hasId_setHidden id e hidden : hasId id (setHidden e hidden) = hasId id e.
Proof.
  rewrite setHidden_eq. unfold hasId, CreateAttr. simpl.
  by rewrite findAttr_setAttr_ne.
Qed.

Lemma findFrom_alter (f : Element → Element) doc id i pos :
  (∀ e, hasId id (f e) = hasId id e) →
  findFrom (alter f i doc) id pos = findFrom doc id pos.
Proof.
  intros Hf. revert i pos. induction doc as [|e doc IH]; intros i pos.
  - done.
  - destruct i as [|i]; simpl.
    + by rewrite Hf.
    + change (list_alter f i doc) with (alter f i doc). by rewrite IH.
Qed.

Lemma FindElementsById_toggle doc id i hidden :
  FindElementsById (alter (λ e, setHidden e hidden) i doc) id
  = FindElementsById doc id.
Proof.
  apply findFrom_alter. intros e. apply hasId_setHidden.
Qed.


Section Toggles.

Context {World : Type}.

Lemma rangeIDs_cons_Ok id rest hidden (doc doc' : Document)
    (w w' : World) t :
  rangeIDs (id :: rest) hidden doc w = (w', t, Ok doc') →
  ∃ i, FindElementsById doc id = [i]
       ∧ rangeIDs rest hidden (alter (λ e, setHidden e hidden) i doc) w
         = (w', t, Ok doc').
Proof.
  simpl. intros (i & w1 & t1 & t2 & Hfind & Hrest & ->)%bind_Ok.
  apply assertOneElementById_Ok in Hfind as (Hfind & -> & ->).
  by exists i.
Qed.

(** The loops over identifiers make no call to the outside. *)
Lemma rangeIDs_pure ids hidden (doc doc' : Document) (w w' : World) t :
  rangeIDs ids hidden doc w = (w', t, Ok doc') → w' = w ∧ t = [].
Proof.
  revert doc. induction ids as [|id rest IH]; intros doc.
  - by intros [= <- <- <-].
  - intros (i & _ & Hrest)%rangeIDs_cons_Ok. by apply IH in Hrest.
Qed.

Lemma rangeIDs_FindElementsById ids hidden (doc doc' : Document)
    (w w' : World) t id :
  rangeIDs ids hidden doc w = (w', t, Ok doc') →
  FindElementsById doc' id = FindElementsById doc id.
Proof.
  revert doc. induction ids as [|id0 rest IH]; intros doc.
  - by intros [= <- <- <-].
  - intros (i & _ & Hrest)%rangeIDs_cons_Ok. apply IH in Hrest.
    by rewrite Hrest, FindElementsById_toggle.
Qed.



(** The toggles of one list are the loop over the list. *)
Lemma applyToggles_rangeIDs ids hidden (doc : Document) (w : World) :
  applyToggles (map (λ id, (id, hidden)) ids) doc w
  = rangeIDs ids hidden doc w.
Proof.
  revert doc w. induction ids as [|id rest IH]; intros doc w; [done|].
  simpl. unfold mbind, M_bind.
  destruct (assertOneElementById doc id w) as [[w1 t1] [i|msg|msg]];
    try done.
  by rewrite IH.
Qed.

Lemma applyToggles_app toggles1 toggles2 (doc : Document) (w : World) :
  applyToggles (toggles1 ++ toggles2) doc w
  = (applyToggles toggles1 doc ≫= applyToggles toggles2) w.
Proof.
  revert doc w.
  induction toggles1 as [|[id hidden] rest IH]; intros doc w; simpl.
  - unfold mbind, M_bind. simpl.
    by destruct (applyToggles toggles2 doc w) as [[w1 t1] o].
  - unfold mbind, M_bind in *.
    destruct (assertOneElementById doc id w) as [[w1 t1] [i|msg|msg]];
      try done.
    rewrite IH.
    destruct (applyToggles rest _ w1) as [[w2 t2] [doc2|msg|msg]]; try done.
    destruct (applyToggles toggles2 doc2 w2) as [[w3 t3] o].
    by rewrite app_assoc.
Qed.

(** The toggles of a layer are its two loops, one after the other. *)
Lemma layerToggles_run layer (doc : Document) (w : World) :
  applyToggles (layerToggles layer) doc w
  = (rangeIDs (HideIDs layer) true doc
     ≫= rangeIDs (ShowIDs layer) false) w.
Proof.
  unfold layerToggles. rewrite applyToggles_app. unfold mbind, M_bind.
  rewrite applyToggles_rangeIDs.
  destruct (rangeIDs (HideIDs layer) true doc w) as [[w1 t1] [doc1|msg|msg]];
    try done.
  by rewrite applyToggles_rangeIDs.
Qed.

End Toggles.

(** ** Paths *)

Lemma length_append s t :
  String.length (s +:+ t) = String.length s + String.length t.
Proof.
  induction s as [|c s IH]; [done|]. rewrite append_String. simpl. lia.
Qed.

Lemma substring_append s t : substring 0 (String.length s) (s +:+ t) = s.
Proof.
  induction s as [|c s IH]; simpl.
  - by destruct t.
  - by rewrite IH.
Qed.

(** Cutting a suffix off with a slice. *)
Lemma slice0_suffix s e : slice0 (s +:+ e) (len (s +:+ e) - len e) = Some s.
Proof.
  unfold slice0, len. rewrite length_append.
  replace (Z.of_nat (String.length s + String.length e)
           - Z.of_nat (String.length e))%Z
    with (Z.of_nat (String.length s)) by lia.
  rewrite Nat2Z.id, substring_append.
  destruct (Z.leb_spec 0 (Z.of_nat (String.length s))); [|lia].
  destruct (Z.leb_spec (Z.of_nat (String.length s))
              (Z.of_nat (String.length s + String.length e))); [done|lia].
Qed.

Lemma list_ascii_of_string_append s t :
  list_ascii_of_string (s +:+ t)
  = list_ascii_of_string s ++ list_ascii_of_string t.
Proof.
  induction s as [|c s IH]; [done|]. rewrite append_String. simpl.
  by rewrite IH.
Qed.

Lemma Ext_svg name : filepath.Ext (name +:+ ".svg") = ".svg".
Proof.
  unfold filepath.Ext. rewrite list_ascii_of_string_append, rev_app_distr.
  done.
Qed.

Lemma extScan_length rpath acc :
  length (filepath.extScan rpath acc) ≤ length rpath + length acc.
Proof.
  revert acc. induction rpath as [|c rpath IH]; intros acc; simpl; [lia|].
  destruct (filepath.isSeparator c); simpl; [lia|].
  destruct (Ascii.eqb c "."); simpl; [lia|].
  specialize (IH (c :: acc)). simpl in IH. lia.
Qed.

Lemma length_string_of_list_ascii l :
  String.length (string_of_list_ascii l) = length l.
Proof. induction l as [|c l IH]; simpl; [done|]. by rewrite IH. Qed.

Lemma length_list_ascii_of_string s :
  length (list_ascii_of_string s) = String.length s.
Proof. induction s as [|c s IH]; simpl; [done|]. by rewrite IH. Qed.

(** The extension is no longer than the path, so the slice that cuts it off
    is within bounds. *)
Lemma Ext_length path :
  String.length (filepath.Ext path) ≤ String.length path.
Proof.
  unfold filepath.Ext. rewrite length_string_of_list_ascii.
  etrans; [apply extScan_length|].
  rewrite length_rev, length_list_ascii_of_string. simpl. lia.
Qed.

Lemma slice0_Ext path :
  is_Some (slice0 path (len path - len (filepath.Ext path))).
Proof.
  unfold slice0, len. pose proof (Ext_length path) as Hle.
  destruct (Z.leb_spec 0 (Z.of_nat (String.length path)
                          - Z.of_nat (String.length (filepath.Ext path))));
    [|lia].
  destruct (Z.leb_spec (Z.of_nat (String.length path)
                        - Z.of_nat (String.length (filepath.Ext path)))
              (Z.of_nat (String.length path))); [|lia].
  by eexists.
Qed.

(** Text without separator after a path goes to the last element. *)
Lemma Split_append a e sep :
  hasByte sep e = false →
  ∃ init l,
    Split a sep = init ++ [l] ∧ Split (a +:+ e) sep = init ++ [l +:+ e].
Proof.
  intros He. induction a as [|c a (init & l & Ha & Hae)].
  - exists [], "". split; [done|]. by apply Split_no_sep_id.
  - rewrite append_String. simpl. rewrite Ha, Hae.
    destruct (Ascii.eqb c sep).
    + by exists ("" :: init), l.
    + destruct init as [|h init]; simpl.
      * by exists [], (String c l).
      * by exists (String c h :: init), l.
Qed.

Lemma HasPrefix_append a e :
  hasByte "/" e = false → HasPrefix (a +:+ e) "/" = HasPrefix a "/".
Proof.
  intros He. unfold HasPrefix. destruct a as [|c a].
  - rewrite append_empty_l. destruct e as [|c e]; [done|].
    simpl in He. apply orb_false_iff in He as [Hc _].
    change (String.prefix "/" (String c e))
      with (if ascii_dec "/" c then String.prefix "" e else false).
    destruct (ascii_dec "/" c) as [<-|]; [discriminate Hc|done].
  - rewrite append_String.
    change (String.prefix "/" (String c (a +:+ e)))
      with (if ascii_dec "/" c then String.prefix "" (a +:+ e) else false).
    change (String.prefix "/" (String c a))
      with (if ascii_dec "/" c then String.prefix "" a else false).
    destruct (ascii_dec "/" c); [|done].
    generalize (a +:+ e). intros ae. by destruct a, ae.
Qed.

Lemma Join_snoc_append l x e sep :
  Join (l ++ [x +:+ e]) sep = Join (l ++ [x]) sep +:+ e.
Proof.
  destruct l as [|y l]; [done|].
  rewrite !Join_snoc by done. by rewrite !append_assoc.
Qed.

Lemma cleanStep_real rooted kept elem :
  3 ≤ String.length elem →
  filepath.cleanStep rooted kept elem = elem :: kept.
Proof.
  intros Hlen. unfold filepath.cleanStep.
  destruct (String.eqb_spec elem "") as [->|_]; [simpl in Hlen; lia|].
  destruct (String.eqb_spec elem ".") as [->|_]; [simpl in Hlen; lia|].
  destruct (String.eqb_spec elem "..") as [->|_]; [simpl in Hlen; lia|].
  done.
Qed.

Lemma Split_snoc x name sep :
  hasByte sep name = false →
  Split (x +:+ String sep name) sep = Split x sep ++ [name].
Proof.
  intros Hname. induction x as [|c x IH].
  - rewrite append_empty_l. simpl.
    by rewrite Ascii.eqb_refl, Split_no_sep_id.
  - rewrite append_String. simpl. rewrite IH.
    destruct (Ascii.eqb c sep); [done|].
    by destruct (Split_cons x sep) as (head & rest & ->).
Qed.

(** What [Clean] makes of a path that ends in an extension: a directory
    part that is empty or ends in a separator, the last element of the
    path, and the extension. *)
Lemma Clean_ext_last a :
  ∃ dir init l,
    Split a "/" = init ++ [l]
    ∧ (dir = "" ∨ ∃ d, dir = d +:+ "/")
    ∧ ∀ e, hasByte "/" e = false → 3 ≤ String.length e →
           filepath.Clean (a +:+ e) = dir +:+ l +:+ e.
Proof.
  destruct (Split_append a "" "/"%char eq_refl) as (init & l & Ha & _).
  set (rooted := HasPrefix a "/").
  set (kept := fold_left (filepath.cleanStep rooted) init []).
  set (root := if rooted then "/" else "").
  exists (root +:+ match rev kept with
                   | [] => ""
                   | _ => Join (rev kept) "/" +:+ "/"
                   end), init, l.
  split; [done|]. split.
  - destruct (rev kept) as [|k ks].
    + subst root. destruct rooted; [right; by exists ""|by left].
    + right. exists (root +:+ Join (k :: ks) "/"). by rewrite append_assoc.
  - intros e He Hlen.
    destruct (Split_append a e "/"%char He) as (init' & l' & Ha' & Hae).
    rewrite Ha in Ha'. apply app_inj_tail in Ha' as [<- <-].
    unfold filepath.Clean, filepath.cleanBody.
    rewrite HasPrefix_append, Hae, fold_left_app by done. simpl.
    rewrite cleanStep_real by (rewrite length_append; lia). simpl.
    fold rooted kept root.
    assert (root +:+ Join (rev kept ++ [l +:+ e]) "/"
            = (root +:+ match rev kept with
                        | [] => ""
                        | _ => Join (rev kept) "/" +:+ "/"
                        end) +:+ l +:+ e) as ->.
    { rewrite Join_snoc_append. destruct (rev kept) as [|k ks].
      - simpl. by rewrite append_empty_r.
      - rewrite Join_snoc by done. by rewrite !append_assoc. }
    set (dir := root +:+ _).
    destruct (String.eqb_spec (dir +:+ l +:+ e) "") as [Hnil|_]; [|done].
    apply (f_equal String.length) in Hnil.
    rewrite !length_append in Hnil. simpl in Hnil. lia.
Qed.

(** The stem does not depend on the extension. *)
Lemma Clean_ext a :
  ∃ stem, ∀ e,
    hasByte "/" e = false → 3 ≤ String.length e →
    filepath.Clean (a +:+ e) = stem +:+ e.
Proof.
  destruct (Clean_ext_last a) as (dir & init & l & _ & _ & Hclean).
  exists (dir +:+ l). intros e He Hlen.
  by rewrite Hclean, append_assoc.
Qed.

Lemma Join_two a b :
  filepath.Join [a; b]
  = if String.eqb a "" then
      if String.eqb b "" then "" else filepath.Clean b
    else filepath.Clean (a +:+ "/" +:+ b).
Proof. done. Qed.

Lemma Join_ext outDir base :
  ∃ stem, ∀ e,
    hasByte "/" e = false → 3 ≤ String.length e →
    filepath.Join [outDir; base +:+ e] = stem +:+ e.
Proof.
  destruct (String.eqb_spec outDir "") as [->|Hdir].
  - destruct (Clean_ext base) as (stem & Hstem). exists stem.
    intros e He Hlen. rewrite Join_two. simpl.
    destruct (String.eqb_spec (base +:+ e) "") as [Hnil|_]; [|by apply Hstem].
    apply (f_equal String.length) in Hnil. rewrite length_append in Hnil.
    simpl in Hnil. lia.
  - destruct (Clean_ext (outDir +:+ "/" +:+ base)) as (stem & Hstem).
    exists stem. intros e He Hlen. rewrite Join_two.
    destruct (String.eqb_spec outDir "") as [|_]; [done|].
    rewrite <- Hstem by done. by rewrite !append_assoc.
Qed.

(** ** What a run reads and what it puts out *)

Section Layers.

Context {World : Type} (sys : System World).

(** A layer that is processed to the end: both loops found their
    elements, the document was written and rasterized. *)
Lemma processImageLayer_Ok layer (doc doc' : Document) outFile
    (w w' : World) t :
  processImageLayer sys layer doc outFile w = (w', t, Ok doc') →
  ∃ doc1 stem,
    rangeIDs (HideIDs layer) true doc w = (w, [], Ok doc1)
    ∧ rangeIDs (ShowIDs layer) false doc1 w = (w, [], Ok doc')
    ∧ slice0 outFile (len outFile - 4) = Some stem
    ∧ t = [EvWriteToFile outFile doc';
           EvRun (rasterize outFile (stem +:+ ".png"))].
Proof.
  unfold processImageLayer.
  intros (doc1 & w1 & t1 & t1' & Hhide & Hrun & ->)%bind_Ok.
  destruct (rangeIDs_pure _ _ _ _ _ _ _ Hhide) as [-> ->].
  apply bind_Ok in Hrun as (doc2 & w2 & t2 & t2' & Hshow & Hrun & ->).
  destruct (rangeIDs_pure _ _ _ _ _ _ _ Hshow) as [-> ->].
  apply bind_Ok in Hrun as (err & w3 & t3 & t3' & Hwrite & Hrun & ->).
  unfold WriteToFile in Hwrite.
  destruct (doc_WriteToFile sys w doc2 outFile) as [w3' err'] eqn:Hw.
  injection Hwrite as <- <- <-.
  apply bind_Ok in Hrun as ([] & w4 & t4 & t4' & Herr & Hrun & ->).
  destruct err' as [e|]; [discriminate Herr|]. injection Herr as <- <-.
  apply bind_Ok in Hrun as (stem & w5 & t5 & t5' & Hslice & Hrun & ->).
  unfold slice in Hslice.
  destruct (slice0 outFile (len outFile - 4)) as [stem'|] eqn:Hs;
    [|discriminate Hslice].
  injection Hslice as <- <- <-.
  apply bind_Ok in Hrun as (err & w6 & t6 & t6' & Hcmd & Hrun & ->).
  unfold Run in Hcmd.
  destruct (cmd_Run sys w3' _) as [w6' err'] eqn:Hc.
  injection Hcmd as <- <- <-.
  destruct err' as [e|]; [discriminate Hrun|]. injection Hrun as <- <- <-.
  by exists doc1, stem'.
Qed.

End Layers.

(** ** Layers of an image *)

Section LayerOrder.

Context {World : Type} (sys : System World).

(** The loops over identifiers make no call and leave the world as it is,
    however they end. *)
Lemma rangeIDs_run ids hidden (doc : Document) (w : World) :
  ∃ o, rangeIDs ids hidden doc w = (w, [], o).
Proof.
  revert doc. induction ids as [|id rest IH]; intros doc; simpl.
  - by eexists.
  - unfold assertOneElementById.
    destruct (FindElementsById doc id) as [|i [|i' more]]; simpl;
      try by eexists.
    destruct (IH (alter (λ e, setHidden e hidden) i doc)) as [o Ho].
    exists o. unfold mbind, M_bind. simpl. by rewrite Ho.
Qed.

(** The document that a layer writes is the document after both loops,
    and it goes to the output file of the layer. *)
Lemma processImageLayer_written layer (doc doc' : Document) outFile path
    (w : World) :
  EvWriteToFile path doc'
    ∈ traceOf (processImageLayer sys layer doc outFile w) →
  path = outFile
  ∧ ∃ doc1, rangeIDs (HideIDs layer) true doc w = (w, [], Ok doc1)
            ∧ rangeIDs (ShowIDs layer) false doc1 w = (w, [], Ok doc').
Proof.
  unfold processImageLayer.
  destruct (rangeIDs_run (HideIDs layer) true doc w) as [[doc1|msg|msg] Hhide].
  2:{ rewrite (bind_run_Fatal _ _ _ _ _ _ Hhide). by intros ?%elem_of_nil. }
  2:{ rewrite (bind_run_Panic _ _ _ _ _ _ Hhide). by intros ?%elem_of_nil. }
  rewrite (bind_run_Ok _ _ _ _ _ _ Hhide).
  destruct (rangeIDs_run (ShowIDs layer) false doc1 w)
    as [[doc2|msg|msg] Hshow].
  2:{ rewrite (bind_run_Fatal _ _ _ _ _ _ Hshow). by intros ?%elem_of_nil. }
  2:{ rewrite (bind_run_Panic _ _ _ _ _ _ Hshow). by intros ?%elem_of_nil. }
  rewrite (bind_run_Ok _ _ _ _ _ _ Hshow).
  intros Hin.
  assert (EvWriteToFile path doc' = EvWriteToFile outFile doc2) as [= -> ->];
    [|eauto].
  revert Hin. unfold mbind, M_bind, WriteToFile, slice, Run, traceOf. simpl.
  destruct (doc_WriteToFile sys w doc2 outFile) as [w3 [e|]]; simpl.
  { by intros ?%list_elem_of_singleton. }
  destruct (slice0 outFile (len outFile - 4)) as [stem|]; simpl.
  2:{ by intros ?%list_elem_of_singleton. }
  destruct (cmd_Run sys w3 _) as [w4 [e|]]; simpl;
    intros [?|[?|?%elem_of_nil]%elem_of_cons]%elem_of_cons; done.
Qed.

(** The converse: when both loops find their elements, the layer writes the
    document that they leave. *)
Lemma processImageLayer_writes layer (doc doc1 doc' : Document) outFile
    (w : World) :
  rangeIDs (HideIDs layer) true doc w = (w, [], Ok doc1) →
  rangeIDs (ShowIDs layer) false doc1 w = (w, [], Ok doc') →
  EvWriteToFile outFile doc'
    ∈ traceOf (processImageLayer sys layer doc outFile w).
Proof.
  intros Hhide Hshow. unfold processImageLayer.
  rewrite (bind_run_Ok _ _ _ _ _ _ Hhide), (bind_run_Ok _ _ _ _ _ _ Hshow).
  unfold mbind, M_bind, WriteToFile, slice, Run, traceOf. simpl.
  destruct (doc_WriteToFile sys w doc' outFile) as [w3 [e|]]; simpl;
    [by left|].
  destruct (slice0 outFile (len outFile - 4)) as [stem|]; simpl; [|by left].
  destruct (cmd_Run sys w3 _) as [w4 [e|]]; simpl; by left.
Qed.


End LayerOrder.

(** ** Images *)

Section Traces.

Context {World : Type}.

(** A property of every call of a computation holds of every call of a
    sequence of computations. *)
Lemma bind_trace_Forall {A B} (P : Event → Prop)
    (m : M World A) (f : A → M World B) w :
  Forall P (traceOf (m w)) →
  (∀ a w1, Forall P (traceOf (f a w1))) →
  Forall P (traceOf ((m ≫= f) w)).
Proof.
  intros Hm Hf. unfold mbind, M_bind.
  destruct (m w) as [[w1 t1] [a|msg|msg]]; try done.
  specialize (Hf a w1). destruct (f a w1) as [[w2 t2] o].
  apply Forall_app. by split.
Qed.

Lemma assertOneElementById_trace (doc : Document) id (w : World) :
  traceOf (assertOneElementById doc id w) = [].
Proof.
  unfold assertOneElementById.
  by destruct (FindElementsById doc id) as [|i [|i' rest]].
Qed.

Lemma rangeIDs_trace P ids hidden (doc : Document) (w : World) :
  Forall P (traceOf (rangeIDs ids hidden doc w)).
Proof.
  revert doc w. induction ids as [|id rest IH]; intros doc w; simpl.
  - constructor.
  - apply bind_trace_Forall; [|by intros].
    rewrite assertOneElementById_trace. constructor.
Qed.

Lemma inputs_nil t : Forall (λ ev, input ev = None) t → inputs t = [].
Proof.
  unfold inputs. induction 1 as [|ev t Hev _ IH]; [done|].
  simpl. by rewrite Hev.
Qed.

Lemma inputs_app t1 t2 : inputs (t1 ++ t2) = inputs t1 ++ inputs t2.
Proof. apply omap_app. Qed.

Lemma outputs_app t1 t2 : outputs (t1 ++ t2) = outputs t1 ++ outputs t2.
Proof. apply omap_app. Qed.

End Traces.

Section Images.

Context {World : Type} (sys : System World).

(** Processing layers neither stats nor loads a file. *)
Lemma processImageLayer_no_input layer (doc : Document) outFile (w : World) :
  Forall (λ ev, input ev = None)
    (traceOf (processImageLayer sys layer doc outFile w)).
Proof.
  unfold processImageLayer.
  apply bind_trace_Forall; [apply rangeIDs_trace|]. intros doc1 w1.
  apply bind_trace_Forall; [apply rangeIDs_trace|]. intros doc2 w2.
  apply bind_trace_Forall.
  { unfold WriteToFile. destruct (doc_WriteToFile sys w2 doc2 outFile).
    by repeat constructor. }
  intros err w3. apply bind_trace_Forall.
  { destruct err; constructor. }
  intros _ w4. apply bind_trace_Forall.
  { unfold slice. destruct (slice0 outFile (len outFile - 4)); constructor. }
  intros stem w5. apply bind_trace_Forall.
  { unfold Run. destruct (cmd_Run sys w5 _). by repeat constructor. }
  intros err' w6. destruct err'; constructor.
Qed.

Lemma rangeLayers_no_input layers outPrefix outExt outDir
    (doc : Document) (w : World) :
  Forall (λ ev, input ev = None)
    (traceOf (rangeLayers sys layers outPrefix outExt outDir doc w)).
Proof.
  revert doc w. induction layers as [|layer rest IH]; intros doc w; simpl.
  - constructor.
  - apply bind_trace_Forall; [apply processImageLayer_no_input|].
    intros doc1 w1. apply IH.
Qed.

(** An image stats and loads its source file and no other. *)
Lemma processImage_inputs image inDir outDir (w : World) :
  Forall (λ ev, ∀ p, input ev = Some p →
                     p = filepath.Join [inDir; Filename image])
    (traceOf (processImage sys image inDir outDir w)).
Proof.
  unfold processImage.
  set (inFile := filepath.Join [inDir; Filename image]).
  apply bind_trace_Forall.
  { repeat constructor. by intros p [= <-]. }
  intros fileStat w1. apply bind_trace_Forall.
  { destruct fileStat as [fi|]; [destruct (IsRegular fi)|]; constructor. }
  intros _ w2. apply bind_trace_Forall.
  { unfold slice. destruct (slice0 _ _); constructor. }
  intros outPrefix w3. apply bind_trace_Forall.
  { destruct (String.eqb _ _); constructor. }
  intros _ w4. apply bind_trace_Forall.
  { repeat constructor. by intros p [= <-]. }
  intros [e|doc] w5; [constructor|].
  eapply Forall_impl; [apply rangeLayers_no_input|].
  simpl. intros ev Hev p Hp. congruence.
Qed.

Lemma rangeImages_inputs images inDir outDir (w : World) :
  Forall (λ ev, ∀ p, input ev = Some p →
                     ∃ image, image ∈ images
                              ∧ p = filepath.Join [inDir; Filename image])
    (traceOf (rangeImages sys images inDir outDir w)).
Proof.
  revert w. induction images as [|image rest IH]; intros w; simpl.
  - constructor.
  - apply bind_trace_Forall.
    + eapply Forall_impl; [apply processImage_inputs|].
      simpl. intros ev Hev p Hp. exists image. split; [by left|eauto].
    + intros _ w1. eapply Forall_impl; [apply IH|].
      simpl. intros ev Hev p Hp.
      destruct (Hev p Hp) as (image' & Hin & ->).
      exists image'. split; [by right|done].
Qed.

End Images.

Lemma hasByte_Forall b s :
  hasByte b s = false →
  Forall (λ c, Ascii.eqb c b = false) (list_ascii_of_string s).
Proof.
  induction s as [|c s IH]; simpl; [constructor|].
  intros [Hc Hs]%orb_false_iff. constructor; auto.
Qed.

Lemma lastElement_app r rest acc :
  Forall (λ c, filepath.isSeparator c = false) r →
  (rest = [] ∨ ∃ rest', rest = "/"%char :: rest') →
  filepath.lastElement (r ++ rest) acc = rev r ++ acc.
Proof.
  intros Hr Hrest. revert acc.
  induction Hr as [|c r Hc _ IH]; intros acc; simpl.
  - by destruct Hrest as [->|[rest' ->]].
  - by rewrite Hc, IH, <- app_assoc.
Qed.

(** The base of a path is the element after its last separator. *)
Lemma Base_last dir c :
  (dir = "" ∨ ∃ d, dir = d +:+ "/") →
  hasByte "/" c = false → c ≠ "" →
  filepath.Base (dir +:+ c) = c.
Proof.
  intros Hdir Hc Hne. unfold filepath.Base.
  destruct (String.eqb_spec (dir +:+ c) "") as [Hnil|_].
  { apply (f_equal String.length) in Hnil. rewrite length_append in Hnil.
    destruct c; [done|]. simpl in Hnil. lia. }
  rewrite list_ascii_of_string_append, rev_app_distr.
  pose proof (hasByte_Forall _ _ Hc) as Hall.
  apply Forall_rev in Hall.
  assert (filepath.dropSeparators
            (rev (list_ascii_of_string c) ++ rev (list_ascii_of_string dir))
          = rev (list_ascii_of_string c) ++ rev (list_ascii_of_string dir))
    as ->.
  { destruct (rev (list_ascii_of_string c)) as [|x r] eqn:Hrev.
    - apply (f_equal (@length ascii)) in Hrev.
      rewrite length_rev, length_list_ascii_of_string in Hrev.
      destruct c; [done|]. simpl in Hrev. lia.
    - inversion Hall as [|? ? Hx _]; subst. simpl.
      unfold filepath.isSeparator. by rewrite Hx. }
  rewrite lastElement_app; [| exact Hall |].
  - rewrite rev_involutive, app_nil_r, string_of_list_ascii_of_string.
    by destruct (String.eqb_spec c "").
  - destruct Hdir as [->|[d ->]]; [by left|right].
    rewrite list_ascii_of_string_append, rev_app_distr. simpl. eauto.
Qed.

(** The source of an image with a plain file name: its base is the file
    name, whatever the input directory. *)
Lemma Base_Join_plain inDir name e :
  hasByte "/" name = false → hasByte "/" e = false → 3 ≤ String.length e →
  filepath.Base (filepath.Join [inDir; name +:+ e]) = name +:+ e.
Proof.
  intros Hname He Hlen.
  assert (hasByte "/" (name +:+ e) = false) as Hbase.
  { clear Hlen. induction name as [|c name IH]; [done|].
    rewrite append_String. simpl in *.
    apply orb_false_iff in Hname as [Hc Hname]. by rewrite Hc, IH. }
  assert (name +:+ e ≠ "") as Hne.
  { intros Hnil. apply (f_equal String.length) in Hnil.
    rewrite length_append in Hnil. simpl in Hnil. lia. }
  rewrite Join_two.
  destruct (String.eqb_spec inDir "") as [->|Hdir].
  - destruct (String.eqb_spec (name +:+ e) "") as [|_]; [done|].
    destruct (Clean_ext_last name) as (dir & init & l & Hsplit & Hd & Hclean).
    rewrite Split_no_sep_id in Hsplit by done.
    change [name] with ([] ++ [name]) in Hsplit.
    apply app_inj_tail in Hsplit as [_ <-].
    rewrite Hclean by done. by apply Base_last.
  - destruct (Clean_ext_last (inDir +:+ "/" +:+ name))
      as (dir & init & l & Hsplit & Hd & Hclean).
    change (inDir +:+ "/" +:+ name) with (inDir +:+ String "/" name)
      in Hsplit.
    rewrite (Split_snoc inDir name "/"%char Hname) in Hsplit.
    apply app_inj_tail in Hsplit as [_ <-].
    replace (inDir +:+ "/" +:+ name +:+ e)
      with ((inDir +:+ "/" +:+ name) +:+ e) by (by rewrite !append_assoc).
    rewrite Hclean by done. by apply Base_last.
Qed.

(** The two output paths of a layer differ in the extension only, and the
    slice of [processImageLayer] cuts the extension off. *)
Lemma layer_paths outDir name suffix :
  ∃ stem,
    filepath.Join [outDir; name +:+ suffix +:+ ".svg"] = stem +:+ ".svg"
    ∧ filepath.Join [outDir; name +:+ suffix +:+ ".png"] = stem +:+ ".png"
    ∧ slice0 (stem +:+ ".svg") (len (stem +:+ ".svg") - 4) = Some stem.
Proof.
  destruct (Join_ext outDir (name +:+ suffix)) as (stem & Hstem).
  exists stem. rewrite <- !append_assoc.
  rewrite !Hstem by (done || simpl; lia).
  split; [done|]. split; [done|]. apply (slice0_suffix stem ".svg").
Qed.

Section ImageRuns.

Context {World : Type} (sys : System World).

Lemma rangeLayers_svg layers name outDir (doc : Document)
    (w w' : World) t :
  rangeLayers sys layers name ".svg" outDir doc w = (w', t, Ok ()) →
  outputs t = flat_map (layerOutputs outDir name) layers.
Proof.
  revert doc w t. induction layers as [|layer rest IH]; intros doc w t.
  - by intros [= <- <- ].
  - simpl. intros (doc1 & w1 & t1 & t2 & Hlayer & Hrest & ->)%bind_Ok.
    apply processImageLayer_Ok in Hlayer
      as (doc0 & stem & _ & _ & Hslice & ->).
    rewrite outputs_app, (IH _ _ _ Hrest). simpl. f_equal.
    unfold layerOutputs. do 3 f_equal.
    destruct (layer_paths outDir name (Suffix layer))
      as (stem' & Hsvg & Hpng & Hcut).
    rewrite Hsvg in Hslice. rewrite Hslice in Hcut.
    injection Hcut as ->. by rewrite Hpng.
Qed.

(** An image that is processed to the end. *)
Lemma processImage_Ok image inDir outDir (w w' : World) t :
  processImage sys image inDir outDir w = (w', t, Ok ()) →
  let inFile := filepath.Join [inDir; Filename image] in
  let outExt := filepath.Ext (filepath.Base inFile) in
  ∃ outPrefix doc t',
    badSource sys w inFile = false
    ∧ slice0 (filepath.Base inFile)
        (len (filepath.Base inFile) - len outExt) = Some outPrefix
    ∧ doc_ReadFromFile sys w inFile = inr doc
    ∧ rangeLayers sys (Layers image) outPrefix outExt outDir doc w
      = (w', t', Ok ())
    ∧ t = EvStat inFile :: EvReadFromFile inFile :: t'.
Proof.
  unfold processImage, badSource. simpl.
  set (inFile := filepath.Join [inDir; Filename image]).
  intros (fileStat & w1 & t1 & t1' & Hstat & Hrun & ->)%bind_Ok.
  injection Hstat as <- <- <-.
  apply bind_Ok in Hrun as ([] & w2 & t2 & t2' & Hreg & Hrun & ->).
  destruct (os_Stat sys w inFile) as [fi|]; [|discriminate Hreg].
  destruct (IsRegular fi); [|discriminate Hreg].
  injection Hreg as <- <-.
  apply bind_Ok in Hrun as (outPrefix & w3 & t3 & t3' & Hslice & Hrun & ->).
  unfold slice in Hslice.
  destruct (slice0 _ _) as [outPrefix'|] eqn:Hs; [|discriminate Hslice].
  injection Hslice as <- <- <-.
  apply bind_Ok in Hrun as ([] & w4 & t4 & t4' & Hext & Hrun & ->).
  destruct (String.eqb _ ".svg") eqn:Hsvg; [|discriminate Hext].
  injection Hext as <- <-.
  apply bind_Ok in Hrun as (doc & w5 & t5 & t5' & Hread & Hrun & ->).
  injection Hread as <- <- <-.
  destruct (doc_ReadFromFile sys w inFile) as [e|doc]; [discriminate Hrun|].
  by exists outPrefix', doc, t5'.
Qed.

(** An image whose source is refused: the program ends after the call
    of [os.Stat]. *)
Lemma processImage_bad image inDir outDir (w : World) :
  badSource sys w (filepath.Join [inDir; Filename image]) = true →
  ∃ msg, processImage sys image inDir outDir w
         = (w, [EvStat (filepath.Join [inDir; Filename image])], Fatal msg).
Proof.
  unfold processImage, badSource.
  set (inFile := filepath.Join [inDir; Filename image]).
  intros Hbad. unfold mbind, M_bind, Stat. simpl.
  destruct (os_Stat sys w inFile) as [fi|]; [|by eexists].
  destruct (IsRegular fi); [|by eexists]. simpl in *.
  destruct (slice0_Ext (filepath.Base inFile)) as [outPrefix Hslice].
  unfold slice. rewrite Hslice. simpl.
  apply negb_true_iff in Hbad. rewrite Hbad. simpl. by eexists.
Qed.

Lemma rangeImages_app images1 images2 inDir outDir (w : World) :
  rangeImages sys (images1 ++ images2) inDir outDir w
  = (rangeImages sys images1 inDir outDir;;
     rangeImages sys images2 inDir outDir) w.
Proof.
  revert w. induction images1 as [|image rest IH]; intros w; simpl.
  - unfold mbind, M_bind. simpl.
    by destruct (rangeImages sys images2 inDir outDir w) as [[w1 t1] o].
  - unfold mbind, M_bind in *. simpl.
    destruct (processImage sys image inDir outDir w) as [[w1 t1] [[]|msg|msg]];
      try done.
    rewrite IH.
    destruct (rangeImages sys rest inDir outDir w1) as [[w2 t2] [[]|msg|msg]];
      try done.
    destruct (rangeImages sys images2 inDir outDir w2) as [[w3 t3] o].
    by rewrite app_assoc.
Qed.

(** [main] up to its loop, when the output directory is there and the
    configuration loads. *)
Lemma main_loads prog cfg out (w : World) dirStat yamlBytes yamlImages :
  os_Stat sys w out = Some dirStat → IsDir dirStat = true →
  os_ReadFile sys w cfg = inr yamlBytes →
  yaml_Unmarshal sys yamlBytes = inr yamlImages →
  main sys [prog; cfg; out] w
  = (let '(w', t, o) :=
       rangeImages sys yamlImages (filepath.Dir cfg) out w in
     (w', EvStat out :: EvReadFile cfg :: t, o)).
Proof.
  intros Hstat Hdir Hread Hyaml. unfold main, mbind, M_bind, Stat, ReadFile.
  simpl. rewrite Hstat, Hdir. simpl. rewrite Hread, Hyaml. simpl.
  by destruct (rangeImages sys yamlImages (filepath.Dir cfg) out w)
    as [[w1 t1] o].
Qed.

End ImageRuns.

Section Runs.

Context {World : Type} (sys : System World).

Lemma rangeImages_Ok_inputs images inDir outDir (w w' : World) t :
  rangeImages sys images inDir outDir w = (w', t, Ok ()) →
  inputs t
  = flat_map (λ image, [filepath.Join [inDir; Filename image];
                        filepath.Join [inDir; Filename image]]) images.
Proof.
  revert w t. induction images as [|image rest IH]; intros w t; simpl.
  - by intros [= <- <-].
  - intros ([] & w1 & t1 & t2 & Himage & Hrest & ->)%bind_Ok.
    apply processImage_Ok in Himage
      as (outPrefix & doc & t' & _ & _ & _ & Hlayers & ->).
    rewrite inputs_app, (IH _ _ Hrest). simpl. do 2 f_equal.
    pose proof (rangeLayers_no_input sys (Layers image) outPrefix
                  (filepath.Ext (filepath.Base
                     (filepath.Join [inDir; Filename image])))
                  outDir doc w) as Hno.
    rewrite Hlayers in Hno. unfold traceOf in Hno. simpl in Hno.
    by rewrite (inputs_nil _ Hno).
Qed.

(** C7: an image whose source has the base name [name.svg] and that is
    processed to the end puts out, for each of its layers in turn, the
    vector file [outDir/name{suffix}.svg] and then one run of the
    rasterizer, from that file to [outDir/name{suffix}.png] at 1280 by 720,
    and nothing else; the raster path is the vector path with its last four
    bytes, [.svg], cut off and [.png] in their place.  By [Base_Join_plain]
    every file name [name.svg] without directory part has that base
    name. *)
Theorem C7_processImage_layer_files
    (image : Image) (inDir outDir name : string) (w w' : World)
    (t : list Event) :
  filepath.Base (filepath.Join [inDir; Filename image]) = name +:+ ".svg" →
  processImage sys image inDir outDir w = (w', t, Ok ()) →
  outputs t
  = flat_map
      (λ layer,
         let svg :=
           filepath.Join [outDir; name +:+ Suffix layer +:+ ".svg"] in
         let png :=
           filepath.Join [outDir; name +:+ Suffix layer +:+ ".png"] in
         [Wrote svg; Ran (rasterize svg png)])
      (Layers image)
  ∧ ∀ layer, ∃ stem,
      filepath.Join [outDir; name +:+ Suffix layer +:+ ".svg"]
      = stem +:+ ".svg"
      ∧ filepath.Join [outDir; name +:+ Suffix layer +:+ ".png"]
        = stem +:+ ".png"
      ∧ slice0 (stem +:+ ".svg") (len (stem +:+ ".svg") - 4) = Some stem.
Proof.
  intros Hbase Hrun. split; [|intros layer; apply layer_paths].
  apply processImage_Ok in Hrun
    as (outPrefix & doc & t' & _ & Hslice & _ & Hlayers & ->).
  rewrite Hbase, Ext_svg in Hslice, Hlayers.
  rewrite slice0_suffix in Hslice. injection Hslice as <-.
  apply rangeLayers_svg in Hlayers. exact Hlayers.
Qed.

(** C8, as the code has it: when the program comes to an image whose
    source it refuses (no such file, not a regular file, no [.svg]
    extension in any case of the letters), it ends in a fatal error after
    the call of [os.Stat] for that source.  Nothing is put out for that
    image or for the images after it; what the images before it put out
    was put out before. *)
Theorem C8_bad_source_ends_run
    (prog cfg out : string) (w w1 : World) (dirStat : FileInfo)
    (yamlBytes : string) (before after : list Image) (image : Image)
    (t1 : list Event) :
  os_Stat sys w out = Some dirStat → IsDir dirStat = true →
  os_ReadFile sys w cfg = inr yamlBytes →
  yaml_Unmarshal sys yamlBytes = inr (before ++ image :: after) →
  rangeImages sys before (filepath.Dir cfg) out w = (w1, t1, Ok ()) →
  badSource sys w1 (filepath.Join [filepath.Dir cfg; Filename image])
  = true →
  ∃ msg t,
    main sys [prog; cfg; out] w = (w1, t, Fatal msg)
    ∧ t = EvStat out :: EvReadFile cfg :: t1
          ++ [EvStat (filepath.Join [filepath.Dir cfg; Filename image])]
    ∧ outputs t = outputs t1.
Proof.
  intros Hstat Hdir Hread Hyaml Hbefore Hbad.
  rewrite (main_loads sys prog cfg out w dirStat yamlBytes _
             Hstat Hdir Hread Hyaml).
  rewrite rangeImages_app, (bind_run_Ok _ _ _ _ _ _ Hbefore). simpl.
  destruct (processImage_bad sys image (filepath.Dir cfg) out w1 Hbad)
    as (msg & Himage).
  rewrite (bind_run_Fatal _ _ _ _ _ _ Himage).
  exists msg. eexists. split; [done|]. split; [done|].
  change (EvStat out :: EvReadFile cfg :: t1 ++ ?l)
    with ([EvStat out; EvReadFile cfg] ++ t1 ++ l).
  rewrite !outputs_app. simpl. by rewrite app_nil_r.
Qed.

(** C9: once the output directory is there and the configuration is
    loaded, every path the run gives to [os.Stat] or to [ReadFromFile] is
    the file name of an image of the configuration joined to the directory
    of the configuration file; a run that comes to its end has given
    every such path to both, in the order of the configuration. *)
Theorem C9_sources_relative_to_config
    (prog cfg out : string) (w : World) (dirStat : FileInfo)
    (yamlBytes : string) (yamlImages : list Image) :
  os_Stat sys w out = Some dirStat → IsDir dirStat = true →
  os_ReadFile sys w cfg = inr yamlBytes →
  yaml_Unmarshal sys yamlBytes = inr yamlImages →
  let r := main sys [prog; cfg; out] w in
  (∃ rest,
     inputs (traceOf r) = out :: rest
     ∧ ∀ p, p ∈ rest →
            ∃ image, image ∈ yamlImages
                     ∧ p = filepath.Join [filepath.Dir cfg; Filename image])
  ∧ (outcomeOf r = Ok () →
     inputs (traceOf r)
     = out :: flat_map
                (λ image,
                   [filepath.Join [filepath.Dir cfg; Filename image];
                    filepath.Join [filepath.Dir cfg; Filename image]])
                yamlImages).
Proof.
  intros Hstat Hdir Hread Hyaml r. subst r.
  rewrite (main_loads sys prog cfg out w dirStat yamlBytes _
             Hstat Hdir Hread Hyaml).
  pose proof (rangeImages_inputs sys yamlImages (filepath.Dir cfg) out w)
    as Hin.
  destruct (rangeImages sys yamlImages (filepath.Dir cfg) out w)
    as [[w1 t1] o] eqn:Hrun.
  unfold traceOf, outcomeOf in *. simpl in *. split.
  - exists (inputs t1). split; [done|].
    intros p Hp. unfold inputs in Hp.
    apply list_elem_of_omap in Hp as (ev & Hev & Hp).
    rewrite Forall_forall in Hin. by apply (Hin ev).
  - intros ->. f_equal. by eapply rangeImages_Ok_inputs.
Qed.

End Runs.

(** ** The properties on the small installation *)

(** The claim C1 in its first half fails: the style of an element without
    style attribute becomes [";display:none"], not ["display:none"]. *)
Lemma C1_no_style_counterexample :
  findAttr (Attrs demo.line1) "style" = None
  ∧ style (setHidden demo.line1 true) ≠ "display:none".
Proof.
  split; [reflexivity|]. intros Heq. vm_compute in Heq. discriminate Heq.
Qed.

Lemma C1_setHidden_hide_examples_witness :
  (findAttr (Attrs demo.line1) "style" = None
   ∧ style (setHidden demo.line1 true) = ";display:none")
  ∧ (findAttr (Attrs demo.red) "style" = Some "color:red"
     ∧ style (setHidden demo.red true) = "color:red;display:none").
Proof.
  split; (split; [reflexivity|]).
  - apply (proj1 (C1_setHidden_hide_examples demo.line1)). reflexivity.
  - apply (proj2 (C1_setHidden_hide_examples demo.red)). reflexivity.
Defined.

Lemma C3_assertOneElementById_unique_witness :
  (matches demo.doc "line1" = 1
   ∧ ∃ i e, assertOneElementById demo.doc "line1" ([] : list string)
            = ([], [], Ok i)
            ∧ demo.doc !! i = Some e ∧ hasId "line1" e = true
            ∧ ∀ j e', demo.doc !! j = Some e' → hasId "line1" e' = true →
                      j = i)
  ∧ (matches demo.twice "line1" ≠ 1
     ∧ assertOneElementById demo.twice "line1" ([] : list string)
       = ([], [], Fatal ("Expected one #line1 element; found 2" +:+ LF))).
Proof.
  split; split.
  - reflexivity.
  - apply (proj1 (C3_assertOneElementById_unique demo.doc "line1" [])).
    reflexivity.
  - discriminate.
  - apply (proj1 (proj2 (C3_assertOneElementById_unique
                           demo.twice "line1" []))).
    discriminate.
Defined.


Lemma C7_processImage_layer_files_witness :
  filepath.Base (filepath.Join ["/cfg"; Filename demo.pic]) = "pic" +:+ ".svg"
  ∧ processImage demo.sys demo.pic "/cfg" "/out" []
    = (demo.run1.1.1, traceOf demo.run1, Ok ())
  ∧ outputs (traceOf demo.run1)
    = [ Wrote "/out/pic_1.svg";
        Ran (rasterize "/out/pic_1.svg" "/out/pic_1.png");
        Wrote "/out/pic_2.svg";
        Ran (rasterize "/out/pic_2.svg" "/out/pic_2.png") ].
Proof.
  assert (filepath.Base (filepath.Join ["/cfg"; Filename demo.pic])
          = "pic" +:+ ".svg") as Hbase by reflexivity.
  assert (processImage demo.sys demo.pic "/cfg" "/out" []
          = (demo.run1.1.1, traceOf demo.run1, Ok ())) as Hrun
    by reflexivity.
  split; [exact Hbase|]. split; [exact Hrun|].
  exact (proj1 (C7_processImage_layer_files demo.sys demo.pic "/cfg" "/out"
                  "pic" [] _ _ Hbase Hrun)).
Defined.

(** The claim C8 fails for a configuration of two images of which the
    second has no source file: the run ends in a fatal error, and the first
    image has been written and rasterized. *)
Lemma C8_earlier_image_counterexample :
  demo.missing ∈ demo.config
  ∧ os_Stat demo.sys []
      (filepath.Join [filepath.Dir "/cfg/in.yaml"; Filename demo.missing])
    = None
  ∧ outcomeOf (main demo.sys demo.args [])
    = Fatal ("Source file needs to exist: /cfg/missing.svg" +:+ LF)
  ∧ Wrote "/out/pic_1.svg" ∈ outputs (traceOf (main demo.sys demo.args [])).
Proof.
  split; [right; left|]. split; [reflexivity|]. split; [reflexivity|].
  vm_compute. left.
Qed.

Lemma C8_bad_source_ends_run_witness :
  os_Stat demo.sys [] "/out" = Some (mkFileInfo false true)
  ∧ os_ReadFile demo.sys [] "/cfg/in.yaml" = inr "images"
  ∧ yaml_Unmarshal demo.sys "images" = inr ([demo.pic] ++ demo.missing :: [])
  ∧ rangeImages demo.sys [demo.pic] (filepath.Dir "/cfg/in.yaml") "/out" []
    = (demo.run1.1.1, traceOf demo.run1, Ok ())
  ∧ badSource demo.sys demo.run1.1.1
      (filepath.Join [filepath.Dir "/cfg/in.yaml"; Filename demo.missing])
    = true
  ∧ ∃ msg t,
      main demo.sys ["bulletpointer"; "/cfg/in.yaml"; "/out"] []
      = (demo.run1.1.1, t, Fatal msg)
      ∧ t = EvStat "/out" :: EvReadFile "/cfg/in.yaml" :: traceOf demo.run1
            ++ [EvStat (filepath.Join [filepath.Dir "/cfg/in.yaml";
                                       Filename demo.missing])]
      ∧ outputs t = outputs (traceOf demo.run1).
Proof.
  assert (rangeImages demo.sys [demo.pic] (filepath.Dir "/cfg/in.yaml")
            "/out" []
          = (demo.run1.1.1, traceOf demo.run1, Ok ())) as Hbefore
    by reflexivity.
  assert (badSource demo.sys demo.run1.1.1
            (filepath.Join [filepath.Dir "/cfg/in.yaml";
                            Filename demo.missing])
          = true) as Hbad by reflexivity.
  split; [reflexivity|]. split; [reflexivity|]. split; [reflexivity|].
  split; [exact Hbefore|]. split; [exact Hbad|].
  exact (C8_bad_source_ends_run demo.sys "bulletpointer" "/cfg/in.yaml" "/out"
           [] _ (mkFileInfo false true) "images" [demo.pic] [] demo.missing _
           eq_refl eq_refl eq_refl eq_refl Hbefore Hbad).
Defined.

Lemma C9_sources_relative_to_config_witness :
  os_Stat demo.sys [] "/out" = Some (mkFileInfo false true)
  ∧ os_ReadFile demo.sys [] "/cfg/in.yaml" = inr "images"
  ∧ yaml_Unmarshal demo.sys "images" = inr demo.config
  ∧ ∃ rest,
      inputs (traceOf (main demo.sys
                         ["bulletpointer"; "/cfg/in.yaml"; "/out"] []))
      = "/out" :: rest
      ∧ ∀ p, p ∈ rest →
             ∃ image, image ∈ demo.config
                      ∧ p = filepath.Join [filepath.Dir "/cfg/in.yaml";
                                           Filename image].
Proof.
  split; [reflexivity|]. split; [reflexivity|]. split; [reflexivity|].
  exact (proj1 (C9_sources_relative_to_config demo.sys "bulletpointer"
                  "/cfg/in.yaml" "/out" [] (mkFileInfo false true) "images"
                  demo.config eq_refl eq_refl eq_refl eq_refl)).
Defined.

(** The claim C10 fails in what it says of the append: with a declaration
    that [setHidden] finds before the one after white space, nothing is
    appended. *)
Lemma C10_nothing_appended_counterexample :
  components demo.both !! 1 = Some " display:none"
  ∧ isDisplay " display:none" = false
  ∧ isDisplay (trimSpace " display:none") = true
  ∧ style (setHidden demo.both true) = "display:none; display:none"
  ∧ length (components (setHidden demo.both true))
    = length (components demo.both).
Proof. repeat split. Qed.

Lemma C10_setHidden_space_before_display_witness :
  (components demo.spaced !! 1 = Some " display:none"
   ∧ trimSpace " display:none" ≠ " display:none"
   ∧ isDisplay (trimSpace " display:none") = true
   ∧ existsb isDisplay (components demo.spaced) = false
   ∧ components (setHidden demo.spaced true)
     = components demo.spaced ++ [expected true]
   ∧ style (setHidden demo.spaced true)
     = style demo.spaced +:+ ";" +:+ expected true)
  ∧ (components demo.both !! 1 = Some " display:none"
     ∧ existsb isDisplay (components demo.both) = true
     ∧ components (setHidden demo.both true)
       = map (λ d, if isDisplay d then expected true else d)
           (components demo.both)
     ∧ length (components (setHidden demo.both true))
       = length (components demo.both)).
Proof.
  assert (trimSpace " display:none" ≠ " display:none") as Htrim
    by discriminate.
  split.
  - split; [reflexivity|]. split; [exact Htrim|]. split; [reflexivity|].
    split; [reflexivity|].
    exact (proj1 (proj2 (proj2 (proj2
             (C10_setHidden_space_before_display demo.spaced true 1
                " display:none" eq_refl Htrim eq_refl)))) eq_refl).
  - split; [reflexivity|]. split; [reflexivity|].
    exact (proj2 (proj2 (proj2 (proj2
             (C10_setHidden_space_before_display demo.both true 1
                " display:none" eq_refl Htrim eq_refl)))) eq_refl).
Defined.

(** * More of the program *)

(** ** More on the visibility toggle *)

Lemma toggled_map hidden hidden' cs :
  map (replaceDisplay (expected hidden')) (toggled hidden cs)
  = toggled hidden' cs.
Proof.
  unfold toggled. rewrite map_app, map_map. f_equal.
  - apply map_ext. intros c. unfold replaceDisplay.
    destruct (isDisplay c) eqn:Hc; [|by rewrite Hc].
    by rewrite expected_isDisplay.
  - destruct (existsb isDisplay cs); [done|]. simpl.
    unfold replaceDisplay. by rewrite expected_isDisplay.
Qed.

(** X1: of two toggles of an element the second wins: the element is as
    if the first had not been. *)
Theorem setHidden_last_wins (e : Element) (h1 h2 : bool) :
  setHidden (setHidden e h1) h2 = setHidden e h2.
Proof.
  rewrite (setHidden_eq (setHidden e h1)), components_setHidden.
  rewrite toggled_toggled, toggled_map.
  rewrite (setHidden_eq e h1), CreateAttr_CreateAttr.
  by rewrite <- setHidden_eq.
Qed.

(** X2: after [setHidden(e, h)] the style has the declaration of [h], and
    no component that starts with ["display:"] is another one. *)
Theorem setHidden_displays (e : Element) (h : bool) :
  displays h (setHidden e h).
Proof.
  unfold displays. rewrite components_setHidden, <- (toggled_map h h).
  split.
  - pose proof (toggled_has_display h (components e)) as Hex.
    apply existsb_exists in Hex as (c & Hin & Hc).
    apply list_elem_of_fmap. exists c. split.
    + unfold replaceDisplay. by rewrite Hc.
    + by apply list_elem_of_In.
  - intros c Hin Hc. by apply (toggled_elem h h (components e)).
Qed.

Lemma setAttr_same attrs key value :
  findAttr attrs key = Some value → setAttr attrs key value = attrs.
Proof.
  induction attrs as [|[k v] attrs IH]; simpl; [done|].
  destruct (String.eqb_spec k key) as [->|_].
  - by intros [= ->].
  - intros Hfind. by rewrite IH.
Qed.

Lemma displays_toggled hidden e :
  displays hidden e → toggled hidden (components e) = components e.
Proof.
  intros [Hin Hall]. unfold toggled.
  assert (existsb isDisplay (components e) = true) as ->.
  { apply existsb_exists. exists (expected hidden).
    split; [by apply list_elem_of_In|apply expected_isDisplay]. }
  rewrite app_nil_r. rewrite <- (map_id (components e)) at 2.
  apply map_ext_in. intros c Hc%list_elem_of_In. unfold replaceDisplay.
  destruct (isDisplay c) eqn:Hd; [|done]. symmetry. by apply Hall.
Qed.

(** X3: [setHidden(e, h)] leaves the element exactly as it is when, and
    only when, its style has the declaration of [h] already and no other
    component that starts with ["display:"]. *)
Theorem setHidden_fixed_point (e : Element) (h : bool) :
  setHidden e h = e ↔ displays h e.
Proof.
  split.
  - intros Heq. rewrite <- Heq. apply setHidden_displays.
  - intros Hd. rewrite setHidden_eq, (displays_toggled _ _ Hd).
    unfold components. rewrite (Join_Split _ ";"%char).
    destruct Hd as [Hin _]. unfold components, style, SelectAttrValue in *.
    destruct e as [tag attrs]. unfold CreateAttr. simpl in *.
    destruct (findAttr attrs "style") as [v|] eqn:Hfind.
    + by rewrite (setAttr_same _ _ _ Hfind).
    + simpl in Hin. apply list_elem_of_singleton in Hin. by destruct h.
Qed.

Lemma setAttr_keys attrs key value :
  map Key (setAttr attrs key value)
  = map Key attrs
    ++ match findAttr attrs key with Some _ => [] | None => [key] end.
Proof.
  induction attrs as [|[k v] attrs IH]; simpl; [done|].
  destruct (String.eqb_spec k key) as [->|_]; simpl.
  - by rewrite app_nil_r.
  - by rewrite IH.
Qed.

(** X4: [setHidden] changes the style attribute and nothing else: the tag
    and every other attribute stay, the attributes keep their order, and a
    style attribute is added after them when there was none. *)
Theorem setHidden_other_attributes (e : Element) (h : bool) :
  Tag (setHidden e h) = Tag e
  ∧ (∀ key, key ≠ "style" →
            findAttr (Attrs (setHidden e h)) key = findAttr (Attrs e) key)
  ∧ map Key (Attrs (setHidden e h))
    = map Key (Attrs e)
      ++ match findAttr (Attrs e) "style" with
         | Some _ => []
         | None => ["style"]
         end.
Proof.
  rewrite setHidden_eq. unfold CreateAttr. simpl. split; [done|]. split.
  - intros key Hkey. by apply findAttr_setAttr_ne.
  - apply setAttr_keys.
Qed.

(** ** More on the locator and on the loops over identifiers *)

Lemma matches_toggle doc id i hidden :
  matches (alter (λ e, setHidden e hidden) i doc) id = matches doc id.
Proof.
  rewrite <- !(findFrom_length _ id 0).
  fold (FindElementsById doc id).
  fold (FindElementsById (alter (λ e, setHidden e hidden) i doc) id).
  by rewrite FindElementsById_toggle.
Qed.

Lemma matches_one doc id :
  matches doc id = 1 → ∃ i, FindElementsById doc id = [i].
Proof.
  rewrite <- (findFrom_length doc id 0). fold (FindElementsById doc id).
  destruct (FindElementsById doc id) as [|i [|i' rest]]; try done.
  by exists i.
Qed.

Section MoreToggles.

Context {World : Type}.

Lemma rangeIDs_length ids hidden (doc doc' : Document) (w w' : World) t :
  rangeIDs ids hidden doc w = (w', t, Ok doc') → length doc' = length doc.
Proof.
  revert doc. induction ids as [|id rest IH]; intros doc.
  - by intros [= <- <- <-].
  - intros (i & _ & Hrest)%rangeIDs_cons_Ok. apply IH in Hrest.
    by rewrite Hrest, length_alter.
Qed.

(** X5: the toggles of a list of identifiers change no identifier: after
    them every identifier, of the list or not, is looked up with the result
    it had before, and the document has as many elements. *)
Theorem rangeIDs_lookup_stable
    (ids : list string) (hidden : bool) (doc doc' : Document)
    (w w' : World) (t : list Event) (id : string) (w0 : World) :
  rangeIDs ids hidden doc w = (w', t, Ok doc') →
  assertOneElementById doc' id w0 = assertOneElementById doc id w0
  ∧ length doc' = length doc.
Proof.
  intros Hrun. split; [|by eapply rangeIDs_length].
  unfold assertOneElementById.
  by rewrite (rangeIDs_FindElementsById _ _ _ _ _ _ _ id Hrun).
Qed.

(** The loop goes through when every identifier names one element. *)
Lemma rangeIDs_all_found ids hidden (doc : Document) (w : World) :
  (∀ id, id ∈ ids → matches doc id = 1) →
  ∃ doc', rangeIDs ids hidden doc w = (w, [], Ok doc').
Proof.
  revert doc. induction ids as [|id rest IH]; intros doc Hall.
  - by eexists.
  - destruct (matches_one doc id) as [i Hi]; [apply Hall; by left|].
    destruct (IH (alter (λ e, setHidden e hidden) i doc)) as [doc' Hrest].
    { intros id' Hin. rewrite matches_toggle. apply Hall. by right. }
    exists doc'. simpl.
    rewrite (bind_run_Ok _ _ _ w [] i)
      by (by apply assertOneElementById_found).
    by rewrite Hrest.
Qed.

(** The loop ends at the first identifier that does not. *)
Lemma rangeIDs_bad ids hidden (doc : Document) (w : World) id :
  id ∈ ids → matches doc id ≠ 1 →
  ∃ id', id' ∈ ids ∧ matches doc id' ≠ 1
         ∧ rangeIDs ids hidden doc w
           = (w, [], Fatal (expectedOne id' (matches doc id'))).
Proof.
  revert doc. induction ids as [|id0 rest IH]; intros doc Hin Hbad.
  - by apply elem_of_nil in Hin.
  - destruct (decide (matches doc id0 = 1)) as [Hone|Hnot].
    + destruct (matches_one doc id0 Hone) as [i Hi].
      apply elem_of_cons in Hin as [->|Hin]; [done|].
      destruct (IH (alter (λ e, setHidden e hidden) i doc) Hin)
        as (id' & Hin' & Hbad' & Hrun).
      { by rewrite matches_toggle. }
      rewrite matches_toggle in Hbad', Hrun.
      exists id'. split; [by right|]. split; [done|]. simpl.
      rewrite (bind_run_Ok _ _ _ w [] i)
        by (by apply assertOneElementById_found).
      by rewrite Hrun.
    + exists id0. split; [by left|]. split; [done|]. simpl.
      by rewrite (bind_run_Fatal _ _ _ w [] (expectedOne id0 (matches doc id0)))
        by (by apply assertOneElementById_fatal).
Qed.

Lemma rangeIDs_Ok_matches ids hidden (doc doc' : Document) (w w' : World) t :
  rangeIDs ids hidden doc w = (w', t, Ok doc') →
  ∀ id, id ∈ ids → matches doc id = 1.
Proof.
  intros Hrun id Hin.
  destruct (decide (matches doc id = 1)) as [|Hbad]; [done|].
  destruct (rangeIDs_bad ids hidden doc w id Hin Hbad) as (? & _ & _ & Hf).
  congruence.
Qed.

Lemma rangeIDs_matches ids hidden (doc doc' : Document) (w w' : World) t id :
  rangeIDs ids hidden doc w = (w', t, Ok doc') →
  matches doc' id = matches doc id.
Proof.
  intros Hrun. rewrite <- !(findFrom_length _ id 0).
  fold (FindElementsById doc id). fold (FindElementsById doc' id).
  by rewrite (rangeIDs_FindElementsById _ _ _ _ _ _ _ id Hrun).
Qed.

End MoreToggles.

(** ** More on layers *)

Section MoreLayers.

Context {World : Type} (sys : System World).

Lemma layerToggles_Ok layer (doc doc' : Document) (w : World) :
  applyToggles (layerToggles layer) doc w = (w, [], Ok doc')
  ↔ ∃ doc1, rangeIDs (HideIDs layer) true doc w = (w, [], Ok doc1)
            ∧ rangeIDs (ShowIDs layer) false doc1 w = (w, [], Ok doc').
Proof.
  rewrite layerToggles_run. split.
  - intros (doc1 & w1 & t1 & t2 & Hhide & Hshow & Ht)%bind_Ok.
    destruct (rangeIDs_pure _ _ _ _ _ _ _ Hhide) as [-> ->].
    destruct (rangeIDs_pure _ _ _ _ _ _ _ Hshow) as [_ ->]. eauto.
  - intros (doc1 & Hhide & Hshow).
    by rewrite (bind_run_Ok _ _ _ _ _ _ Hhide), Hshow.
Qed.

(** X6: a layer comes to write its file when, and only when, each of its
    identifiers names exactly one element of the document. *)
Theorem processImageLayer_writes_iff
    (layer : ImageLayer) (doc : Document) (outFile : string) (w : World) :
  (∃ doc', EvWriteToFile outFile doc'
             ∈ traceOf (processImageLayer sys layer doc outFile w))
  ↔ ∀ id, id ∈ HideIDs layer ∨ id ∈ ShowIDs layer → matches doc id = 1.
Proof.
  split.
  - intros (doc' & (_ & doc1 & Hhide & Hshow)%processImageLayer_written).
    intros id [Hin|Hin].
    + by eapply rangeIDs_Ok_matches.
    + rewrite <- (rangeIDs_matches _ _ _ _ _ _ _ id Hhide).
      by eapply rangeIDs_Ok_matches.
  - intros Hall.
    destruct (rangeIDs_all_found (HideIDs layer) true doc w) as [doc1 Hhide];
      [by auto|].
    destruct (rangeIDs_all_found (ShowIDs layer) false doc1 w)
      as [doc' Hshow].
    { intros id Hin. rewrite (rangeIDs_matches _ _ _ _ _ _ _ id Hhide). auto. }
    exists doc'. by eapply processImageLayer_writes.
Qed.

(** X7: a layer with an identifier that names no element, or several,
    ends in the fatal error of the locator for such an identifier of the
    layer, with the number of elements found, before any call: nothing is
    written and the rasterizer is not run. *)
Theorem processImageLayer_bad_id
    (layer : ImageLayer) (doc : Document) (outFile : string) (w : World)
    (id : string) :
  id ∈ HideIDs layer ∨ id ∈ ShowIDs layer →
  matches doc id ≠ 1 →
  ∃ id', (id' ∈ HideIDs layer ∨ id' ∈ ShowIDs layer)
         ∧ matches doc id' ≠ 1
         ∧ processImageLayer sys layer doc outFile w
           = (w, [], Fatal (expectedOne id' (matches doc id'))).
Proof.
  intros Hin Hbad. unfold processImageLayer.
  destruct (decide (Forall (λ id, matches doc id = 1) (HideIDs layer)))
    as [Hall|Hnot].
  - rewrite Forall_forall in Hall.
    destruct (rangeIDs_all_found (HideIDs layer) true doc w Hall)
      as [doc1 Hhide].
    destruct Hin as [Hin|Hin]; [by apply Hall in Hin|].
    destruct (rangeIDs_bad (ShowIDs layer) false doc1 w id Hin)
      as (id' & Hin' & Hbad' & Hshow).
    { by rewrite (rangeIDs_matches _ _ _ _ _ _ _ id Hhide). }
    rewrite (rangeIDs_matches _ _ _ _ _ _ _ id' Hhide) in Hbad', Hshow.
    exists id'. split; [by right|]. split; [done|].
    by rewrite (bind_run_Ok _ _ _ _ _ _ Hhide),
      (bind_run_Fatal _ _ _ _ _ _ Hshow).
  - apply not_Forall_Exists in Hnot; [|intros id0; apply _].
    apply Exists_exists in Hnot as (id0 & Hin0 & Hbad0).
    destruct (rangeIDs_bad (HideIDs layer) true doc w id0 Hin0 Hbad0)
      as (id' & Hin' & Hbad' & Hhide).
    exists id'. split; [by left|]. split; [done|].
    by rewrite (bind_run_Fatal _ _ _ _ _ _ Hhide).
Qed.

(** X8: the errors of the two outputs of a layer are fatal.  When the
    write of the vector file fails, the program ends with the path and the
    error in the message, and the rasterizer is not run; when the
    rasterizer fails, the program ends after the write and the run. *)
Theorem processImageLayer_output_errors
    (layer : ImageLayer) (doc doc' : Document) (outFile : string)
    (w w1 : World) (err : string) :
  applyToggles (layerToggles layer) doc w = (w, [], Ok doc') →
  (doc_WriteToFile sys w doc' outFile = (w1, Some err) →
   processImageLayer sys layer doc outFile w
   = (w1, [EvWriteToFile outFile doc'],
      Fatal ("Problem writing to " +:+ outFile +:+ ": " +:+ err +:+ LF)))
  ∧ (∀ w0 stem,
       doc_WriteToFile sys w doc' outFile = (w0, None) →
       slice0 outFile (len outFile - 4) = Some stem →
       cmd_Run sys w0 (rasterize outFile (stem +:+ ".png")) = (w1, Some err) →
       processImageLayer sys layer doc outFile w
       = (w1, [EvWriteToFile outFile doc';
               EvRun (rasterize outFile (stem +:+ ".png"))],
          Fatal ("Could not convert SVG to PNG with Inkscape: "
                 +:+ err +:+ LF))).
Proof.
  intros (doc1 & Hhide & Hshow)%layerToggles_Ok.
  unfold processImageLayer.
  rewrite (bind_run_Ok _ _ _ _ _ _ Hhide), (bind_run_Ok _ _ _ _ _ _ Hshow).
  split.
  - intros Hwrite. unfold mbind, M_bind, WriteToFile. simpl.
    by rewrite Hwrite.
  - intros w0 stem Hwrite Hslice Hrun.
    unfold mbind, M_bind, WriteToFile, slice, Run, rasterize in *. simpl.
    rewrite Hwrite. simpl. rewrite Hslice. simpl. by rewrite Hrun.
Qed.

(** X9: the slice [outFile[0:len(outFile)-4]] is out of bounds for a path
    of fewer than four bytes: a layer with such an output file ends in a
    panic after the write, before the rasterizer. *)
Theorem processImageLayer_short_path
    (layer : ImageLayer) (doc doc' : Document) (outFile : string)
    (w w1 : World) :
  applyToggles (layerToggles layer) doc w = (w, [], Ok doc') →
  doc_WriteToFile sys w doc' outFile = (w1, None) →
  String.length outFile < 4 →
  processImageLayer sys layer doc outFile w
  = (w1, [EvWriteToFile outFile doc'], Panic "slice bounds out of range").
Proof.
  intros (doc1 & Hhide & Hshow)%layerToggles_Ok Hwrite Hlen.
  unfold processImageLayer.
  rewrite (bind_run_Ok _ _ _ _ _ _ Hhide), (bind_run_Ok _ _ _ _ _ _ Hshow).
  unfold mbind, M_bind, WriteToFile, slice. simpl. rewrite Hwrite. simpl.
  assert (slice0 outFile (len outFile - 4) = None) as ->; [|done].
  unfold slice0, len.
  destruct (Z.leb_spec 0 (Z.of_nat (String.length outFile) - 4)); [lia|done].
Qed.

(** A layer panics for no other reason. *)
Lemma processImageLayer_panics layer (doc : Document) outFile (w : World) :
  panics (processImageLayer sys layer doc outFile w) →
  String.length outFile < 4.
Proof.
  unfold processImageLayer, panics, outcomeOf.
  destruct (rangeIDs_run (HideIDs layer) true doc w) as [[doc1|msg|msg] Hhide].
  2:{ rewrite (bind_run_Fatal _ _ _ _ _ _ Hhide). by intros [? ?]. }
  2:{ exfalso. revert Hhide. clear.
      revert doc. induction (HideIDs layer) as [|id rest IH]; intros doc;
        [done|].
      simpl. unfold assertOneElementById.
      destruct (FindElementsById doc id) as [|i [|i' more]]; simpl;
        try done.
      unfold mbind, M_bind. simpl.
      destruct (rangeIDs rest true _ w) as [[w1 t1] o] eqn:Hrest.
      intros [= -> -> ->]. by eapply IH. }
  rewrite (bind_run_Ok _ _ _ _ _ _ Hhide).
  destruct (rangeIDs_run (ShowIDs layer) false doc1 w)
    as [[doc2|msg|msg] Hshow].
  2:{ rewrite (bind_run_Fatal _ _ _ _ _ _ Hshow). by intros [? ?]. }
  2:{ exfalso. revert Hshow. clear.
      revert doc1. induction (ShowIDs layer) as [|id rest IH]; intros doc;
        [done|].
      simpl. unfold assertOneElementById.
      destruct (FindElementsById doc id) as [|i [|i' more]]; simpl;
        try done.
      unfold mbind, M_bind. simpl.
      destruct (rangeIDs rest false _ w) as [[w1 t1] o] eqn:Hrest.
      intros [= -> -> ->]. by eapply IH. }
  rewrite (bind_run_Ok _ _ _ _ _ _ Hshow).
  unfold mbind, M_bind, WriteToFile, slice, Run. simpl.
  destruct (doc_WriteToFile sys w doc2 outFile) as [w3 [e|]]; simpl;
    [by intros [? ?]|].
  destruct (slice0 outFile (len outFile - 4)) as [stem|] eqn:Hslice; simpl.
  - destruct (cmd_Run sys w3 _) as [w4 [e|]]; simpl; by intros [? ?].
  - intros _. unfold slice0, len in Hslice.
    destruct (Z.leb_spec 0 (Z.of_nat (String.length outFile) - 4)); [|lia].
    destruct (Z.leb_spec (Z.of_nat (String.length outFile) - 4)
                (Z.of_nat (String.length outFile))); [done|lia].
Qed.

End MoreLayers.

(** ** More on extensions *)

Lemma lower_dot c : lower c = "."%char → c = "."%char.
Proof.
  destruct c as [[] [] [] [] [] [] [] []]; intros H; vm_compute in H;
    try discriminate H; done.
Qed.

Lemma lower_svg c :
  (lower c = "s" ∨ lower c = "v" ∨ lower c = "g")%char →
  filepath.isSeparator c = false ∧ Ascii.eqb c "." = false.
Proof.
  destruct c as [[] [] [] [] [] [] [] []]; intros [H|[H|H]];
    vm_compute in H; try discriminate H; done.
Qed.

(** The extensions that [processImage] takes: a dot and the letters
    [s], [v], [g] in either case. *)
Lemma ToLower_svg ext :
  ToLower ext = ".svg" →
  ∃ c2 c3 c4,
    ext = String "." (String c2 (String c3 (String c4 "")))
    ∧ lower c2 = "s"%char ∧ lower c3 = "v"%char ∧ lower c4 = "g"%char.
Proof.
  destruct ext as [|c1 [|c2 [|c3 [|c4 [|c5 rest]]]]]; simpl; intros H;
    try discriminate H.
  injection H as H1 H2 H3 H4. apply lower_dot in H1 as ->.
  by exists c2, c3, c4.
Qed.

Lemma svg_ext_shape ext :
  ToLower ext = ".svg" →
  hasByte "/" ext = false ∧ String.length ext = 4
  ∧ ∀ name, filepath.Ext (name +:+ ext) = ext.
Proof.
  intros (c2 & c3 & c4 & -> & H2 & H3 & H4)%ToLower_svg.
  destruct (lower_svg c2) as [Hs2 Hd2]; [auto|].
  destruct (lower_svg c3) as [Hs3 Hd3]; [auto|].
  destruct (lower_svg c4) as [Hs4 Hd4]; [auto|].
  unfold filepath.isSeparator in *. split; [|split; [done|]].
  - simpl. by rewrite Hs2, Hs3, Hs4.
  - intros name. unfold filepath.Ext.
    rewrite list_ascii_of_string_append, rev_app_distr. simpl.
    unfold filepath.isSeparator. by rewrite Hs4, Hd4, Hs3, Hd3, Hs2, Hd2.
Qed.

(** The paths of a layer for such an extension. *)
Lemma layer_paths_ext outDir name suffix ext :
  hasByte "/" ext = false → String.length ext = 4 →
  ∃ stem,
    filepath.Join [outDir; name +:+ suffix +:+ ext] = stem +:+ ext
    ∧ filepath.Join [outDir; name +:+ suffix +:+ ".png"] = stem +:+ ".png"
    ∧ slice0 (stem +:+ ext) (len (stem +:+ ext) - 4) = Some stem.
Proof.
  intros Hext Hlen.
  destruct (Join_ext outDir (name +:+ suffix)) as (stem & Hstem).
  exists stem. rewrite <- !append_assoc.
  rewrite (Hstem ext) by (done || lia).
  rewrite (Hstem ".png") by (done || simpl; lia).
  split; [done|]. split; [done|].
  pose proof (slice0_suffix stem ext) as Hcut. unfold len in Hcut at 2.
  by rewrite Hlen in Hcut.
Qed.

Lemma length_substring_prefix s n :
  n ≤ String.length s → String.length (substring 0 n s) = n.
Proof.
  revert n. induction s as [|c s IH]; intros [|n] Hn; simpl in *;
    try done; try lia.
  rewrite IH; lia.
Qed.

Section MoreImages.

Context {World : Type} (sys : System World).

Lemma rangeLayers_ext layers outPrefix outExt outDir (doc : Document)
    (w w' : World) t :
  ToLower outExt = ".svg" →
  rangeLayers sys layers outPrefix outExt outDir doc w = (w', t, Ok ()) →
  outputs t
  = flat_map
      (λ layer,
         let svg :=
           filepath.Join [outDir; outPrefix +:+ Suffix layer +:+ outExt] in
         let png :=
           filepath.Join [outDir; outPrefix +:+ Suffix layer +:+ ".png"] in
         [Wrote svg; Ran (rasterize svg png)])
      layers.
Proof.
  intros (Hslash & Hlen & _)%svg_ext_shape.
  revert doc w t. induction layers as [|layer rest IH]; intros doc w t.
  - by intros [= <- <- ].
  - simpl. intros (doc1 & w1 & t1 & t2 & Hlayer & Hrest & ->)%bind_Ok.
    apply processImageLayer_Ok in Hlayer
      as (doc0 & stem & _ & _ & Hslice & ->).
    rewrite outputs_app, (IH _ _ _ Hrest). simpl. do 4 f_equal.
    destruct (layer_paths_ext outDir outPrefix (Suffix layer) outExt)
      as (stem' & Hsvg & Hpng & Hcut); [done..|].
    rewrite Hsvg in Hslice. rewrite Hslice in Hcut.
    injection Hcut as ->. by rewrite Hpng.
Qed.

(** A layer of an image does not panic: its output file ends in the
    extension, of four bytes. *)
Lemma rangeLayers_no_panic layers outPrefix outExt outDir (doc : Document)
    (w : World) :
  ToLower outExt = ".svg" →
  ¬ panics (rangeLayers sys layers outPrefix outExt outDir doc w).
Proof.
  intros Hext. pose proof (svg_ext_shape _ Hext) as (Hslash & Hlen & _).
  revert doc w. induction layers as [|layer rest IH]; intros doc w.
  - by intros [? ?].
  - simpl. unfold mbind, M_bind.
    destruct (processImageLayer sys layer doc _ w) as [[w1 t1] [doc1|msg|msg]]
      eqn:Hlayer.
    + specialize (IH doc1 w1). unfold panics, outcomeOf in *.
      by destruct (rangeLayers sys rest outPrefix outExt outDir doc1 w1)
        as [[w2 t2] o].
    + by intros [? ?].
    + intros _.
      assert (panics (processImageLayer sys layer doc
                        (filepath.Join
                           [outDir; outPrefix +:+ Suffix layer +:+ outExt])
                        w)) as Hp
        by (rewrite Hlayer; by eexists).
      apply processImageLayer_panics in Hp.
      destruct (layer_paths_ext outDir outPrefix (Suffix layer) outExt)
        as (stem & Hsvg & _); [done..|].
      rewrite Hsvg, length_append, Hlen in Hp. lia.
Qed.

Lemma processImage_no_panic image inDir outDir (w : World) :
  ¬ panics (processImage sys image inDir outDir w).
Proof.
  unfold processImage.
  set (inFile := filepath.Join [inDir; Filename image]).
  unfold mbind, M_bind, Stat, ReadFromFile. simpl.
  destruct (os_Stat sys w inFile) as [fi|]; [|by intros [? ?]].
  destruct (IsRegular fi); [|by intros [? ?]]. simpl.
  destruct (slice0_Ext (filepath.Base inFile)) as [outPrefix Hslice].
  unfold slice. rewrite Hslice. simpl.
  destruct (String.eqb_spec (ToLower (filepath.Ext (filepath.Base inFile)))
              ".svg") as [Hext|_]; [|by intros [? ?]]. simpl.
  destruct (doc_ReadFromFile sys w inFile) as [e|doc]; [by intros [? ?]|].
  pose proof (rangeLayers_no_panic (Layers image) outPrefix _ outDir doc w
                Hext) as Hno.
  unfold panics, outcomeOf in *.
  by destruct (rangeLayers sys (Layers image) outPrefix _ outDir doc w)
    as [[w2 t2] o].
Qed.

Lemma rangeImages_no_panic images inDir outDir (w : World) :
  ¬ panics (rangeImages sys images inDir outDir w).
Proof.
  revert w. induction images as [|image rest IH]; intros w.
  - by intros [? ?].
  - simpl. unfold mbind, M_bind.
    pose proof (processImage_no_panic image inDir outDir w) as Hno.
    destruct (processImage sys image inDir outDir w) as [[w1 t1] [[]|msg|msg]].
    + specialize (IH w1). unfold panics, outcomeOf in *.
      by destruct (rangeImages sys rest inDir outDir w1) as [[w2 t2] o].
    + by intros [? ?].
    + exfalso. apply Hno. by eexists.
Qed.

Lemma main_no_panic (args : list string) (w : World) :
  ¬ panics (main sys args w).
Proof.
  unfold main.
  destruct args as [|prog [|cfg [|out [|more args]]]]; try by intros [? ?].
  unfold mbind, M_bind, Stat, ReadFile. simpl.
  destruct (os_Stat sys w out) as [fi|]; [|by intros [? ?]].
  destruct (IsDir fi); [|by intros [? ?]]. simpl.
  destruct (os_ReadFile sys w cfg) as [e|yamlBytes]; [by intros [? ?]|].
  destruct (yaml_Unmarshal sys yamlBytes) as [e|yamlImages];
    [by intros [? ?]|]. simpl.
  pose proof (rangeImages_no_panic yamlImages (filepath.Dir cfg) out w)
    as Hno.
  unfold panics, outcomeOf in *.
  by destruct (rangeImages sys yamlImages (filepath.Dir cfg) out w)
    as [[w2 t2] o].
Qed.

(** X10: the index and the slices of the program are within bounds
    wherever a run comes to them: [elements[0]] in [assertOneElementById],
    [outPrefix[0:len(outPrefix)-len(outExt)]] in [processImage] and
    [outFile[0:len(outFile)-4]] in [processImageLayer].  These are the
    panics of the model, so no run of [main] in it ends in one.  A nil
    entry of the configuration and a panic inside a library are not in the
    model; a run stops there before it comes to a further index or
    slice. *)
Theorem main_index_and_slices_in_bounds (args : list string) (w : World) :
  outcomeOf (main sys args w) = Ok ()
  ∨ ∃ msg, outcomeOf (main sys args w) = Fatal msg.
Proof.
  pose proof (main_no_panic args w) as Hno. unfold panics in Hno.
  destruct (outcomeOf (main sys args w)) as [[]|msg|msg].
  - by left.
  - right. by exists msg.
  - exfalso. apply Hno. by exists msg.
Qed.

End MoreImages.

(** ** More on images and on runs *)

Section MoreRuns.

Context {World : Type} (sys : System World).

Lemma slice0_Some s hi s' :
  slice0 s hi = Some s' →
  (0 ≤ hi ≤ len s)%Z ∧ s' = substring 0 (Z.to_nat hi) s.
Proof.
  unfold slice0, len.
  destruct (Z.leb_spec 0 hi); [|done].
  destruct (Z.leb_spec hi (Z.of_nat (String.length s))); [|done].
  intros [= <-]. split; [lia|done].
Qed.

(** The outputs of an image that is processed to the end. *)
Lemma processImage_outputs image inDir outDir (w w' : World) t :
  processImage sys image inDir outDir w = (w', t, Ok ()) →
  outputs t = imageOutputs inDir outDir image.
Proof.
  intros Hrun. apply processImage_Ok in Hrun
    as (outPrefix & doc & t' & Hgood & Hslice & _ & Hlayers & ->).
  unfold badSource in Hgood.
  destruct (os_Stat sys w _) as [fi|]; [|done].
  apply orb_false_iff in Hgood as [_ Hext]. apply negb_false_iff in Hext.
  apply String.eqb_eq in Hext.
  apply slice0_Some in Hslice as [Hbound ->].
  unfold imageOutputs, outPrefixOf, outExtOf, len in *.
  replace (Z.to_nat (Z.of_nat _ - Z.of_nat _))
    with (String.length
            (filepath.Base (filepath.Join [inDir; Filename image]))
          - String.length
              (filepath.Ext
                 (filepath.Base (filepath.Join [inDir; Filename image]))))
    in Hlayers by lia.
  by apply rangeLayers_ext in Hlayers.
Qed.

Lemma rangeImages_outputs images inDir outDir (w w' : World) t :
  rangeImages sys images inDir outDir w = (w', t, Ok ()) →
  outputs t = flat_map (imageOutputs inDir outDir) images.
Proof.
  revert w t. induction images as [|image rest IH]; intros w t; simpl.
  - by intros [= <- <-].
  - intros ([] & w1 & t1 & t2 & Himage & Hrest & ->)%bind_Ok.
    by rewrite outputs_app, (processImage_outputs _ _ _ _ _ _ Himage),
      (IH _ _ Hrest).
Qed.

(** A run makes its calls in stages: it comes to the images only with
    two arguments, an output directory and a configuration that loads. *)
Lemma main_stages args (w : World) :
  (∃ prog cfg out dirStat yamlBytes yamlImages,
     args = [prog; cfg; out]
     ∧ os_Stat sys w out = Some dirStat ∧ IsDir dirStat = true
     ∧ os_ReadFile sys w cfg = inr yamlBytes
     ∧ yaml_Unmarshal sys yamlBytes = inr yamlImages)
  ∨ (∃ w' t msg, main sys args w = (w', t, Fatal msg)
                 ∧ outputs t = []
                 ∧ ∀ path, EvReadFromFile path ∉ t).
Proof.
  unfold main.
  destruct args as [|prog [|cfg [|out [|more args]]]];
    try (right; do 3 eexists; split; [reflexivity|];
         split; [done|]; by intros path ?%elem_of_nil).
  unfold mbind, M_bind, Stat, ReadFile. simpl.
  destruct (os_Stat sys w out) as [fi|] eqn:Hstat.
  2:{ right. do 3 eexists. split; [reflexivity|]. split; [done|].
      intros path [?|?%elem_of_nil]%elem_of_cons; done. }
  destruct (IsDir fi) eqn:Hdir; simpl.
  2:{ right. do 3 eexists. split; [reflexivity|]. split; [done|].
      intros path [?|?%elem_of_nil]%elem_of_cons; done. }
  destruct (os_ReadFile sys w cfg) as [e|yamlBytes] eqn:Hread.
  { right. do 3 eexists. split; [reflexivity|]. split; [done|].
    intros path [?|[?|?%elem_of_nil]%elem_of_cons]%elem_of_cons; done. }
  destruct (yaml_Unmarshal sys yamlBytes) as [e|yamlImages] eqn:Hyaml.
  { right. do 3 eexists. split; [reflexivity|]. split; [done|].
    intros path [?|[?|?%elem_of_nil]%elem_of_cons]%elem_of_cons; done. }
  left. by exists prog, cfg, out, fi, yamlBytes, yamlImages.
Qed.

(** X11: a run that comes to its end has put out, for each image of the
    configuration in turn and for each of its layers in turn, the vector
    file and one run of the rasterizer, and nothing else.  The vector file
    is named after the base name of the source, with the suffix of the
    layer before the extension; the raster file has the extension [.png]
    in its place. *)
Theorem main_outputs (args : list string) (w w' : World) (t : list Event) :
  main sys args w = (w', t, Ok ()) →
  ∃ prog cfg out yamlBytes yamlImages,
    args = [prog; cfg; out]
    ∧ os_ReadFile sys w cfg = inr yamlBytes
    ∧ yaml_Unmarshal sys yamlBytes = inr yamlImages
    ∧ outputs t = flat_map (imageOutputs (filepath.Dir cfg) out) yamlImages.
Proof.
  intros Hrun.
  destruct (main_stages args w)
    as [(prog & cfg & out & fi & yamlBytes & yamlImages
         & -> & Hstat & Hdir & Hread & Hyaml)
       |(w1 & t1 & msg & Hfatal & _)]; [|congruence].
  exists prog, cfg, out, yamlBytes, yamlImages.
  split; [done|]. split; [done|]. split; [done|].
  rewrite (main_loads sys prog cfg out w fi yamlBytes _
             Hstat Hdir Hread Hyaml) in Hrun.
  destruct (rangeImages sys yamlImages (filepath.Dir cfg) out w)
    as [[w1 t1] o] eqn:Himages.
  injection Hrun as <- <- ->.
  by apply rangeImages_outputs in Himages.
Qed.

(** X12: the extension of the source is taken in any case of its letters
    and kept as it is in the name of the vector file; the raster file gets
    [.png] in small letters. *)
Theorem processImage_keeps_extension
    (image : Image) (inDir outDir name ext : string) (w w' : World)
    (t : list Event) :
  filepath.Base (filepath.Join [inDir; Filename image]) = name +:+ ext →
  ToLower ext = ".svg" →
  processImage sys image inDir outDir w = (w', t, Ok ()) →
  outputs t
  = flat_map
      (λ layer,
         let svg := filepath.Join [outDir; name +:+ Suffix layer +:+ ext] in
         let png :=
           filepath.Join [outDir; name +:+ Suffix layer +:+ ".png"] in
         [Wrote svg; Ran (rasterize svg png)])
      (Layers image).
Proof.
  intros Hbase Hext Hrun.
  rewrite (processImage_outputs _ _ _ _ _ _ Hrun).
  destruct (svg_ext_shape _ Hext) as (_ & _ & Hofext).
  unfold imageOutputs, outPrefixOf, outExtOf.
  rewrite Hbase, Hofext, length_append.
  replace (String.length name + String.length ext - String.length ext)
    with (String.length name) by lia.
  by rewrite substring_append.
Qed.

(** X13: a run validates first: unless it has exactly two arguments, the
    second is a directory, and the first is a configuration that is read
    and parsed, it ends in a fatal error, having put nothing out and loaded
    no document. *)
Theorem main_validates_first (args : list string) (w : World) :
  (∃ prog cfg out dirStat yamlBytes yamlImages,
     args = [prog; cfg; out]
     ∧ os_Stat sys w out = Some dirStat ∧ IsDir dirStat = true
     ∧ os_ReadFile sys w cfg = inr yamlBytes
     ∧ yaml_Unmarshal sys yamlBytes = inr yamlImages)
  ∨ (∃ w' t msg, main sys args w = (w', t, Fatal msg)
                 ∧ outputs t = []
                 ∧ ∀ path, EvReadFromFile path ∉ t).
Proof. apply main_stages. Qed.

(** X14: the first failure ends the run: when an image fails after the
    images before it went through, the run ends as that image does, and no
    call is made for the images after it. *)
Theorem rangeImages_fails_fast
    (before after : list Image) (image : Image) (inDir outDir : string)
    (w w1 w2 : World) (t1 t2 : list Event) (msg : string) :
  rangeImages sys before inDir outDir w = (w1, t1, Ok ()) →
  processImage sys image inDir outDir w1 = (w2, t2, Fatal msg) →
  rangeImages sys (before ++ image :: after) inDir outDir w
  = (w2, t1 ++ t2, Fatal msg).
Proof.
  intros Hbefore Himage.
  rewrite rangeImages_app, (bind_run_Ok _ _ _ _ _ _ Hbefore). simpl.
  by rewrite (bind_run_Fatal _ _ _ _ _ _ Himage).
Qed.

End MoreRuns.

(** ** What a layer leaves to the layers after it *)

Lemma hasId_unique id id' e :
  hasId id e = true → id' ≠ id → hasId id' e = false.
Proof.
  unfold hasId. destruct (findAttr (Attrs e) "id") as [v|]; [|done].
  intros ->%String.eqb_eq Hne. by apply String.eqb_neq.
Qed.

Section CarryOver.

Context {World : Type} (sys : System World).

(** An element that displays [hidden] does so after more toggles to
    [hidden]. *)
Lemma rangeIDs_keeps ids hidden (doc doc' : Document) (w w' : World) t i e :
  rangeIDs ids hidden doc w = (w', t, Ok doc') →
  doc !! i = Some e → displays hidden e →
  ∃ e', doc' !! i = Some e' ∧ displays hidden e'.
Proof.
  revert doc e. induction ids as [|id rest IH]; intros doc e.
  - intros [= <- <- <-]. eauto.
  - intros (j & _ & Hrest)%rangeIDs_cons_Ok Hi He.
    destruct (decide (j = i)) as [->|Hne].
    + eapply (IH _ (setHidden e hidden)); [done| |apply setHidden_displays].
      by rewrite list_lookup_alter_eq, Hi.
    + eapply (IH _ e); [done| |done].
      by rewrite list_lookup_alter_ne.
Qed.

(** The loop leaves every element that it names displaying [hidden]. *)
Lemma rangeIDs_sets ids hidden (doc doc' : Document) (w w' : World) t id :
  rangeIDs ids hidden doc w = (w', t, Ok doc') →
  id ∈ ids →
  ∃ i e, FindElementsById doc' id = [i] ∧ doc' !! i = Some e
         ∧ displays hidden e.
Proof.
  revert doc. induction ids as [|id0 rest IH]; intros doc Hrun Hin.
  - by apply elem_of_nil in Hin.
  - apply rangeIDs_cons_Ok in Hrun as (i & Hfind & Hrest).
    apply elem_of_cons in Hin as [->|Hin]; [|by eapply IH].
    assert (i ∈ FindElementsById doc id0) as Hi by (rewrite Hfind; by left).
    apply FindElementsById_elem in Hi as (e & Hi & _).
    destruct (rangeIDs_keeps _ _ _ _ _ _ _ i (setHidden e hidden) Hrest)
      as (e' & He' & Hd).
    { by rewrite list_lookup_alter_eq, Hi. }
    { apply setHidden_displays. }
    exists i, e'. split; [|done].
    by rewrite (rangeIDs_FindElementsById _ _ _ _ _ _ _ id0 Hrest),
      FindElementsById_toggle.
Qed.

(** The loop leaves an element that it does not name as it is. *)
Lemma rangeIDs_untouched ids hidden (doc doc' : Document) (w w' : World)
    t i e :
  rangeIDs ids hidden doc w = (w', t, Ok doc') →
  doc !! i = Some e →
  (∀ id, id ∈ ids → hasId id e = false) →
  doc' !! i = Some e.
Proof.
  revert doc. induction ids as [|id rest IH]; intros doc.
  - by intros [= <- <- <-].
  - intros (j & Hfind & Hrest)%rangeIDs_cons_Ok Hi Hnot.
    assert (j ∈ FindElementsById doc id) as Hj by (rewrite Hfind; by left).
    apply FindElementsById_elem in Hj as (e' & Hj & He').
    assert (j ≠ i) as Hne.
    { intros ->. rewrite Hi in Hj. injection Hj as <-.
      rewrite Hnot in He'; [done|by left]. }
    apply (IH _ Hrest).
    + by rewrite list_lookup_alter_ne.
    + intros id' Hin. apply Hnot. by right.
Qed.

(** A hidden element is hidden after a layer that does not show it. *)
Lemma processImageLayer_keeps_hidden layer (doc doc' : Document) outFile
    (w w' : World) t id i e :
  processImageLayer sys layer doc outFile w = (w', t, Ok doc') →
  FindElementsById doc id = [i] → doc !! i = Some e → displays true e →
  id ∉ ShowIDs layer →
  FindElementsById doc' id = [i]
  ∧ ∃ e', doc' !! i = Some e' ∧ displays true e'.
Proof.
  intros (doc1 & stem & Hhide & Hshow & _)%processImageLayer_Ok
    Hfind Hi He Hnot.
  destruct (rangeIDs_keeps _ _ _ _ _ _ _ i e Hhide Hi He) as (e1 & Hi1 & He1).
  assert (FindElementsById doc1 id = [i]) as Hfind1
    by (by rewrite (rangeIDs_FindElementsById _ _ _ _ _ _ _ id Hhide)).
  split.
  - by rewrite (rangeIDs_FindElementsById _ _ _ _ _ _ _ id Hshow).
  - exists e1. split; [|done].
    apply (rangeIDs_untouched _ _ _ _ _ _ _ _ _ Hshow Hi1).
    intros id' Hin. apply (hasId_unique id).
    + assert (i ∈ FindElementsById doc1 id) as Hin1
        by (rewrite Hfind1; by left).
      apply FindElementsById_elem in Hin1 as (e1' & Hi1' & Hid).
      congruence.
    + intros ->. done.
Qed.

(** A layer that hides an element and does not show it leaves it hidden. *)
Lemma processImageLayer_hides layer (doc doc' : Document) outFile
    (w w' : World) t id :
  processImageLayer sys layer doc outFile w = (w', t, Ok doc') →
  id ∈ HideIDs layer → id ∉ ShowIDs layer →
  ∃ i e, FindElementsById doc' id = [i] ∧ doc' !! i = Some e
         ∧ displays true e.
Proof.
  intros (doc1 & stem & Hhide & Hshow & _)%processImageLayer_Ok Hin Hnot.
  destruct (rangeIDs_sets _ _ _ _ _ _ _ id Hhide Hin)
    as (i & e1 & Hfind1 & Hi1 & He1).
  exists i, e1. split.
  - by rewrite (rangeIDs_FindElementsById _ _ _ _ _ _ _ id Hshow).
  - split; [|done].
    apply (rangeIDs_untouched _ _ _ _ _ _ _ _ _ Hshow Hi1).
    intros id' Hin'. apply (hasId_unique id).
    + assert (i ∈ FindElementsById doc1 id) as Hin1
        by (rewrite Hfind1; by left).
      apply FindElementsById_elem in Hin1 as (e1' & Hi1' & Hid).
      congruence.
    + intros ->. done.
Qed.

Lemma writes_app t1 t2 : writes (t1 ++ t2) = writes t1 ++ writes t2.
Proof. apply omap_app. Qed.

(** The documents that layers write while none of them shows a hidden
    element. *)
Lemma rangeLayers_keeps_hidden layers outPrefix outExt outDir
    (doc : Document) (w w' : World) t id i e :
  rangeLayers sys layers outPrefix outExt outDir doc w = (w', t, Ok ()) →
  FindElementsById doc id = [i] → doc !! i = Some e → displays true e →
  (∀ l, l ∈ layers → id ∉ ShowIDs l) →
  ∀ path d, (path, d) ∈ writes t →
            FindElementsById d id = [i]
            ∧ ∃ e', d !! i = Some e' ∧ displays true e'.
Proof.
  revert doc w t e. induction layers as [|layer rest IH]; intros doc w t e.
  - intros [= <- <-] _ _ _ _ path d Hin. by apply elem_of_nil in Hin.
  - simpl. intros (doc1 & w1 & t1 & t2 & Hlayer & Hrest & ->)%bind_Ok
      Hfind Hi He Hnot path d Hin.
    destruct (processImageLayer_keeps_hidden _ _ _ _ _ _ _ id i e
                Hlayer Hfind Hi He) as (Hfind1 & e1 & Hi1 & He1).
    { apply Hnot. by left. }
    apply processImageLayer_Ok in Hlayer as (doc0 & stem & _ & _ & _ & ->).
    rewrite writes_app in Hin. simpl in Hin.
    apply elem_of_cons in Hin as [[= -> ->]|Hin]; [eauto|].
    eapply (IH _ _ _ e1 Hrest); eauto.
    intros l Hl. apply Hnot. by right.
Qed.

Lemma rangeLayers_app_Ok layers1 layers2 outPrefix outExt outDir
    (doc : Document) (w w' : World) t :
  rangeLayers sys (layers1 ++ layers2) outPrefix outExt outDir doc w
  = (w', t, Ok ()) →
  ∃ doc1 w1 t1 t2,
    t = t1 ++ t2 ∧ length (writes t1) = length layers1
    ∧ rangeLayers sys layers2 outPrefix outExt outDir doc1 w1
      = (w', t2, Ok ()).
Proof.
  revert doc w t. induction layers1 as [|layer rest IH]; intros doc w t.
  - intros Hrun. by exists doc, w, [], t.
  - simpl. intros (doc1 & w1 & t1 & t2 & Hlayer & Hrest & ->)%bind_Ok.
    apply processImageLayer_Ok in Hlayer as (doc0 & stem & _ & _ & _ & ->).
    destruct (IH _ _ _ Hrest) as (doc2 & w2 & t3 & t4 & -> & Hlen & Hrun).
    eexists doc2, w2, (_ :: _ :: t3), t4.
    split; [reflexivity|]. split; [|done].
    simpl. by rewrite Hlen.
Qed.

(** X15: the document is one for all layers of an image, so what a layer
    hides stays hidden: in an image processed to the end, an element that
    a layer hides and does not show is hidden in the file of that layer and
    in the files of the layers after it, as long as none of them shows
    it. *)
Theorem processImage_hidden_carries_over
    (image : Image) (inDir outDir : string) (w w' : World) (t : list Event)
    (before after : list ImageLayer) (layer : ImageLayer) (id : string) :
  processImage sys image inDir outDir w = (w', t, Ok ()) →
  Layers image = before ++ layer :: after →
  id ∈ HideIDs layer →
  (∀ l, l ∈ layer :: after → id ∉ ShowIDs l) →
  length (writes t) = length (Layers image)
  ∧ ∀ path d, (path, d) ∈ drop (length before) (writes t) →
              ∃ i e, FindElementsById d id = [i] ∧ d !! i = Some e
                     ∧ displays true e.
Proof.
  intros Hrun Hlayers Hin Hnot.
  apply processImage_Ok in Hrun
    as (outPrefix & doc & t' & _ & _ & _ & Hrun & ->).
  change (writes (EvStat ?a :: EvReadFromFile ?b :: t')) with (writes t').
  split.
  - rewrite <- (app_nil_r (Layers image)) in Hrun.
    apply rangeLayers_app_Ok in Hrun
      as (doc1 & w1 & t1 & t2 & -> & Hlen & [= <- <-]).
    by rewrite app_nil_r.
  - rewrite Hlayers in Hrun.
    apply rangeLayers_app_Ok in Hrun
      as (doc1 & w1 & t1 & t2 & -> & Hlen & Hrun).
    rewrite writes_app, <- Hlen, drop_app_length.
    simpl in Hrun.
    apply bind_Ok in Hrun as (doc2 & w2 & t3 & t4 & Hlayer & Hrest & ->).
    destruct (processImageLayer_hides _ _ _ _ _ _ _ id Hlayer Hin)
      as (i & e & Hfind & Hi & He).
    { apply Hnot. by left. }
    apply processImageLayer_Ok in Hlayer as (doc0 & stem & _ & _ & _ & ->).
    intros path d Hd. rewrite writes_app in Hd. simpl in Hd.
    apply elem_of_cons in Hd as [[= -> ->]|Hd]; [eauto|].
    destruct (rangeLayers_keeps_hidden _ _ _ _ _ _ _ _ id i e
                Hrest Hfind Hi He) with (path := path) (d := d)
      as (Hfind' & e' & Hi' & He'); eauto.
    intros l Hl. apply Hnot. by right.
Qed.

End CarryOver.

(** ** What a layer does to each element *)

Section LayerEffect.

Context {World : Type} (sys : System World).

(** X17: what a layer that is processed to the end does to the document:
    an element that it hides and does not show is hidden, and an element
    that none of its identifiers names is as it was.  The document that it
    returns for the layers after it is the one it has written. *)
Theorem processImageLayer_effect
    (layer : ImageLayer) (doc doc' : Document) (outFile : string)
    (w w' : World) (t : list Event) :
  processImageLayer sys layer doc outFile w = (w', t, Ok doc') →
  EvWriteToFile outFile doc' ∈ t
  ∧ (∀ id, id ∈ HideIDs layer → id ∉ ShowIDs layer →
           ∃ i e, FindElementsById doc' id = [i] ∧ doc' !! i = Some e
                  ∧ displays true e)
  ∧ (∀ i e, doc !! i = Some e →
            (∀ id, id ∈ HideIDs layer ∨ id ∈ ShowIDs layer →
                   hasId id e = false) →
            doc' !! i = Some e).
Proof.
  intros Hrun. split; [|split].
  - apply processImageLayer_Ok in Hrun as (doc1 & stem & _ & _ & _ & ->).
    by left.
  - intros id Hin Hnot. by eapply processImageLayer_hides.
  - apply processImageLayer_Ok in Hrun as (doc1 & stem & Hhide & Hshow & _).
    intros i e Hi Hnone.
    apply (rangeIDs_untouched _ _ _ _ _ _ _ _ _ Hshow); [|by auto].
    apply (rangeIDs_untouched _ _ _ _ _ _ _ _ _ Hhide Hi). by auto.
Qed.

(** X18: the output directory is not kept apart from the sources: an
    image with a plain file name and a layer without suffix, put out into
    the directory of its source, writes the vector file of that layer over
    the source. *)
Theorem processImage_overwrites_source
    (image : Image) (dir name ext : string) (layer : ImageLayer)
    (w w' : World) (t : list Event) :
  Filename image = name +:+ ext →
  hasByte "/" name = false → ToLower ext = ".svg" →
  layer ∈ Layers image → Suffix layer = "" →
  processImage sys image dir dir w = (w', t, Ok ()) →
  EvReadFromFile (filepath.Join [dir; Filename image]) ∈ t
  ∧ Wrote (filepath.Join [dir; Filename image]) ∈ outputs t.
Proof.
  intros Hname Hplain Hext Hin Hsuffix Hrun.
  destruct (svg_ext_shape _ Hext) as (Hslash & Hlen & _).
  assert (filepath.Base (filepath.Join [dir; Filename image]) = name +:+ ext)
    as Hbase.
  { rewrite Hname. apply Base_Join_plain; [done..|lia]. }
  split.
  - apply processImage_Ok in Hrun as (? & ? & ? & _ & _ & _ & _ & ->).
    right. by left.
  - rewrite (processImage_keeps_extension sys image dir dir name ext
               w w' t Hbase Hext Hrun).
    apply list_elem_of_In, in_flat_map. exists layer.
    split; [by apply list_elem_of_In|].
    rewrite Hsuffix, Hname. by left.
Qed.

End LayerEffect.

(** ** The first draft *)

Section Draft.

Context {World : Type} (sys : System World).

(** X16: the first draft.  A file that does not load is a panic with the
    error, and a document in which [line1] does not name exactly one
    element is the fatal error of the locator; nothing is written in
    either case.  Otherwise the draft writes to [/tmp/out.svg] the document
    in which that element is hidden and every other element is as it was,
    and ends normally, also when the write fails. *)
Theorem draft_main_run (w : World) :
  (∀ err, doc_ReadFromFile sys w draft.file = inl err →
          draft.main sys w = (w, [EvReadFromFile draft.file], Panic err))
  ∧ (∀ doc, doc_ReadFromFile sys w draft.file = inr doc →
            matches doc "line1" ≠ 1 →
            draft.main sys w
            = (w, [EvReadFromFile draft.file],
               Fatal (expectedOne "line1" (matches doc "line1"))))
  ∧ (∀ doc, doc_ReadFromFile sys w draft.file = inr doc →
            matches doc "line1" = 1 →
            ∃ i doc',
              draft.main sys w
              = ((doc_WriteToFile sys w doc' "/tmp/out.svg").1,
                 [EvReadFromFile draft.file;
                  EvWriteToFile "/tmp/out.svg" doc'],
                 Ok ())
              ∧ FindElementsById doc "line1" = [i]
              ∧ FindElementsById doc' "line1" = [i]
              ∧ (∃ e, doc' !! i = Some e ∧ displays true e)
              ∧ length doc' = length doc
              ∧ ∀ j, j ≠ i → doc' !! j = doc !! j).
Proof.
  unfold draft.main, mbind, M_bind, ReadFromFile. simpl.
  split; [|split].
  - by intros err ->.
  - intros doc -> Hbad.
    by rewrite (assertOneElementById_fatal doc "line1" w Hbad).
  - intros doc -> Hone. destruct (matches_one doc "line1" Hone) as [i Hi].
    exists i, (alter (λ e, setHidden e true) i doc).
    rewrite (assertOneElementById_found doc "line1" i w Hi).
    unfold WriteToFile. simpl.
    destruct (doc_WriteToFile sys w _ "/tmp/out.svg") as [w1 err] eqn:Hw.
    simpl. split; [done|]. split; [done|].
    split; [by rewrite FindElementsById_toggle|]. split; [|split].
    + assert (i ∈ FindElementsById doc "line1") as Hin
        by (rewrite Hi; by left).
      apply FindElementsById_elem in Hin as (e & He & _).
      exists (setHidden e true). split; [|apply setHidden_displays].
      by rewrite list_lookup_alter_eq, He.
    + apply length_alter.
    + intros j Hj. by apply list_lookup_alter_ne.
Qed.

End Draft.

(** ** These properties on the small installations *)

Lemma rangeIDs_lookup_stable_witness :
  rangeIDs ["line1"; "line2"] true demo.doc ([] : list string)
  = ([], [], Ok fixture.hiddenDoc)
  ∧ assertOneElementById fixture.hiddenDoc "line2" ([] : list string)
    = assertOneElementById demo.doc "line2" []
  ∧ length fixture.hiddenDoc = length demo.doc.
Proof.
  assert (rangeIDs ["line1"; "line2"] true demo.doc ([] : list string)
          = ([], [], Ok fixture.hiddenDoc)) as Hrun by reflexivity.
  split; [exact Hrun|].
  exact (rangeIDs_lookup_stable ["line1"; "line2"] true demo.doc
           fixture.hiddenDoc [] [] [] "line2" [] Hrun).
Defined.

Lemma processImageLayer_bad_id_witness :
  ("line9" ∈ HideIDs fixture.badLayer ∨ "line9" ∈ ShowIDs fixture.badLayer)
  ∧ matches demo.doc "line9" ≠ 1
  ∧ ∃ id', (id' ∈ HideIDs fixture.badLayer ∨ id' ∈ ShowIDs fixture.badLayer)
           ∧ matches demo.doc id' ≠ 1
           ∧ processImageLayer demo.sys fixture.badLayer demo.doc
               "/out/pic_x.svg" []
             = ([], [], Fatal (expectedOne id' (matches demo.doc id'))).
Proof.
  assert ("line9" ∈ HideIDs fixture.badLayer
          ∨ "line9" ∈ ShowIDs fixture.badLayer) as Hin by (right; left).
  assert (matches demo.doc "line9" ≠ 1) as Hbad by discriminate.
  split; [exact Hin|]. split; [exact Hbad|].
  exact (processImageLayer_bad_id demo.sys fixture.badLayer demo.doc
           "/out/pic_x.svg" [] "line9" Hin Hbad).
Defined.

Lemma processImageLayer_output_errors_witness :
  applyToggles (layerToggles demo.layer1) demo.doc ([] : list string)
  = ([], [], Ok demo.doc1)
  ∧ processImageLayer fixture.readOnly demo.layer1 demo.doc
      "/out/pic_1.svg" []
    = ([], [EvWriteToFile "/out/pic_1.svg" demo.doc1],
       Fatal ("Problem writing to /out/pic_1.svg: permission denied" +:+ LF))
  ∧ processImageLayer fixture.noInkscape demo.layer1 demo.doc
      "/out/pic_1.svg" []
    = (["/out/pic_1.svg"],
       [EvWriteToFile "/out/pic_1.svg" demo.doc1;
        EvRun (rasterize "/out/pic_1.svg" ("/out/pic_1" +:+ ".png"))],
       Fatal ("Could not convert SVG to PNG with Inkscape: exit status 1"
              +:+ LF)).
Proof.
  assert (applyToggles (layerToggles demo.layer1) demo.doc ([] : list string)
          = ([], [], Ok demo.doc1)) as Hrun by reflexivity.
  split; [exact Hrun|]. split.
  - exact (proj1 (processImageLayer_output_errors fixture.readOnly
                    demo.layer1 demo.doc demo.doc1 "/out/pic_1.svg" [] []
                    "permission denied" Hrun) eq_refl).
  - exact (proj2 (processImageLayer_output_errors fixture.noInkscape
                    demo.layer1 demo.doc demo.doc1 "/out/pic_1.svg" []
                    ["/out/pic_1.svg"] "exit status 1" Hrun)
             ["/out/pic_1.svg"] "/out/pic_1" eq_refl eq_refl eq_refl).
Defined.

Lemma processImageLayer_short_path_witness :
  applyToggles (layerToggles demo.layer1) demo.doc ([] : list string)
  = ([], [], Ok demo.doc1)
  ∧ String.length "a" < 4
  ∧ processImageLayer demo.sys demo.layer1 demo.doc "a" []
    = (["a"], [EvWriteToFile "a" demo.doc1],
       Panic "slice bounds out of range").
Proof.
  assert (applyToggles (layerToggles demo.layer1) demo.doc ([] : list string)
          = ([], [], Ok demo.doc1)) as Hrun by reflexivity.
  assert (String.length "a" < 4) as Hlen by (simpl; lia).
  split; [exact Hrun|]. split; [exact Hlen|].
  exact (processImageLayer_short_path demo.sys demo.layer1 demo.doc
           demo.doc1 "a" [] ["a"] Hrun eq_refl Hlen).
Defined.

Lemma main_outputs_witness :
  main fixture.threeSys demo.args []
  = (fixture.mainRun.1.1, traceOf fixture.mainRun, Ok ())
  ∧ ∃ prog cfg out yamlBytes yamlImages,
      demo.args = [prog; cfg; out]
      ∧ os_ReadFile fixture.threeSys [] cfg = inr yamlBytes
      ∧ yaml_Unmarshal fixture.threeSys yamlBytes = inr yamlImages
      ∧ outputs (traceOf fixture.mainRun)
        = flat_map (imageOutputs (filepath.Dir cfg) out) yamlImages.
Proof.
  assert (main fixture.threeSys demo.args []
          = (fixture.mainRun.1.1, traceOf fixture.mainRun, Ok ())) as Hrun
    by reflexivity.
  split; [exact Hrun|].
  exact (main_outputs fixture.threeSys demo.args [] _ _ Hrun).
Defined.

Lemma processImage_keeps_extension_witness :
  filepath.Base (filepath.Join ["/cfg"; Filename fixture.upper])
  = "Pic" +:+ ".SVG"
  ∧ ToLower ".SVG" = ".svg"
  ∧ processImage fixture.upperSys fixture.upper "/cfg" "/out" []
    = (fixture.upperRun.1.1, traceOf fixture.upperRun, Ok ())
  ∧ outputs (traceOf fixture.upperRun)
    = [ Wrote "/out/Pic_1.SVG";
        Ran (rasterize "/out/Pic_1.SVG" "/out/Pic_1.png") ].
Proof.
  assert (filepath.Base (filepath.Join ["/cfg"; Filename fixture.upper])
          = "Pic" +:+ ".SVG") as Hbase by reflexivity.
  assert (ToLower ".SVG" = ".svg") as Hext by reflexivity.
  assert (processImage fixture.upperSys fixture.upper "/cfg" "/out" []
          = (fixture.upperRun.1.1, traceOf fixture.upperRun, Ok ())) as Hrun
    by reflexivity.
  split; [exact Hbase|]. split; [exact Hext|]. split; [exact Hrun|].
  exact (processImage_keeps_extension fixture.upperSys fixture.upper
           "/cfg" "/out" "Pic" ".SVG" [] _ _ Hbase Hext Hrun).
Defined.

Lemma rangeImages_fails_fast_witness :
  rangeImages demo.sys [demo.pic] "/cfg" "/out" []
  = (demo.run1.1.1, traceOf demo.run1, Ok ())
  ∧ processImage demo.sys demo.missing "/cfg" "/out" demo.run1.1.1
    = (demo.run1.1.1, [EvStat "/cfg/missing.svg"],
       Fatal ("Source file needs to exist: /cfg/missing.svg" +:+ LF))
  ∧ rangeImages demo.sys ([demo.pic] ++ demo.missing :: [demo.pic])
      "/cfg" "/out" []
    = (demo.run1.1.1, traceOf demo.run1 ++ [EvStat "/cfg/missing.svg"],
       Fatal ("Source file needs to exist: /cfg/missing.svg" +:+ LF)).
Proof.
  assert (rangeImages demo.sys [demo.pic] "/cfg" "/out" []
          = (demo.run1.1.1, traceOf demo.run1, Ok ())) as Hbefore
    by reflexivity.
  assert (processImage demo.sys demo.missing "/cfg" "/out" demo.run1.1.1
          = (demo.run1.1.1, [EvStat "/cfg/missing.svg"],
             Fatal ("Source file needs to exist: /cfg/missing.svg" +:+ LF)))
    as Himage by reflexivity.
  split; [exact Hbefore|]. split; [exact Himage|].
  exact (rangeImages_fails_fast demo.sys [demo.pic] [demo.pic] demo.missing
           "/cfg" "/out" [] _ _ _ _ _ Hbefore Himage).
Defined.

Lemma processImage_hidden_carries_over_witness :
  processImage fixture.threeSys fixture.three "/cfg" "/out" []
  = (fixture.threeRun.1.1, traceOf fixture.threeRun, Ok ())
  ∧ Layers fixture.three
    = [fixture.layerA] ++ fixture.layerB :: [fixture.layerC]
  ∧ "line2" ∈ HideIDs fixture.layerB
  ∧ (∀ l, l ∈ fixture.layerB :: [fixture.layerC] → "line2" ∉ ShowIDs l)
  ∧ length (writes (traceOf fixture.threeRun)) = length (Layers fixture.three)
  ∧ ∀ path d,
      (path, d) ∈ drop (length [fixture.layerA])
                    (writes (traceOf fixture.threeRun)) →
      ∃ i e, FindElementsById d "line2" = [i] ∧ d !! i = Some e
             ∧ displays true e.
Proof.
  assert (processImage fixture.threeSys fixture.three "/cfg" "/out" []
          = (fixture.threeRun.1.1, traceOf fixture.threeRun, Ok ())) as Hrun
    by reflexivity.
  assert (Layers fixture.three
          = [fixture.layerA] ++ fixture.layerB :: [fixture.layerC]) as Hl
    by reflexivity.
  assert ("line2" ∈ HideIDs fixture.layerB) as Hin by (simpl; left).
  assert (∀ l, l ∈ fixture.layerB :: [fixture.layerC] →
               "line2" ∉ ShowIDs l) as Hnot.
  { intros l [->|[->|?%elem_of_nil]%elem_of_cons]%elem_of_cons;
      [apply not_elem_of_nil|apply not_elem_of_nil|done]. }
  split; [exact Hrun|]. split; [exact Hl|]. split; [exact Hin|].
  split; [exact Hnot|].
  exact (processImage_hidden_carries_over fixture.threeSys fixture.three
           "/cfg" "/out" [] _ _ [fixture.layerA] [fixture.layerC]
           fixture.layerB "line2" Hrun Hl Hin Hnot).
Defined.

Lemma draft_main_run_witness :
  draft.main fixture.draftNoFile []
  = ([], [EvReadFromFile draft.file], Panic "no such file or directory")
  ∧ draft.main fixture.draftTwice []
    = ([], [EvReadFromFile draft.file],
       Fatal (expectedOne "line1" (matches demo.twice "line1")))
  ∧ ∃ i doc',
      draft.main fixture.draftReadOnly []
      = ((doc_WriteToFile fixture.draftReadOnly [] doc' "/tmp/out.svg").1,
         [EvReadFromFile draft.file; EvWriteToFile "/tmp/out.svg" doc'],
         Ok ())
      ∧ FindElementsById demo.doc "line1" = [i]
      ∧ FindElementsById doc' "line1" = [i]
      ∧ (∃ e, doc' !! i = Some e ∧ displays true e)
      ∧ length doc' = length demo.doc
      ∧ ∀ j, j ≠ i → doc' !! j = demo.doc !! j.
Proof.
  split; [|split].
  - exact (proj1 (draft_main_run fixture.draftNoFile [])
             "no such file or directory" eq_refl).
  - assert (matches demo.twice "line1" ≠ 1) as Hbad by discriminate.
    exact (proj1 (proj2 (draft_main_run fixture.draftTwice []))
             demo.twice eq_refl Hbad).
  - exact (proj2 (proj2 (draft_main_run fixture.draftReadOnly []))
             demo.doc eq_refl eq_refl).
Defined.

Lemma processImageLayer_effect_witness :
  processImageLayer demo.sys fixture.layerB demo.doc "/out/pic_1.svg" []
  = (["/out/pic_1.svg"],
     [EvWriteToFile "/out/pic_1.svg" fixture.docB;
      EvRun (rasterize "/out/pic_1.svg" "/out/pic_1.png")],
     Ok fixture.docB)
  ∧ "line2" ∈ HideIDs fixture.layerB
  ∧ ("line2" ∉ ShowIDs fixture.layerB)
  ∧ (∃ i e, FindElementsById fixture.docB "line2" = [i]
            ∧ fixture.docB !! i = Some e ∧ displays true e)
  ∧ demo.doc !! 1 = Some demo.line1
  ∧ fixture.docB !! 1 = Some demo.line1.
Proof.
  assert (processImageLayer demo.sys fixture.layerB demo.doc
            "/out/pic_1.svg" []
          = (["/out/pic_1.svg"],
             [EvWriteToFile "/out/pic_1.svg" fixture.docB;
              EvRun (rasterize "/out/pic_1.svg" "/out/pic_1.png")],
             Ok fixture.docB)) as Hrun by reflexivity.
  assert ("line2" ∈ HideIDs fixture.layerB) as Hin by (simpl; left).
  assert ("line2" ∉ ShowIDs fixture.layerB) as Hnot
    by apply not_elem_of_nil.
  assert (demo.doc !! 1 = Some demo.line1) as H1 by reflexivity.
  split; [exact Hrun|]. split; [exact Hin|]. split; [exact Hnot|].
  split; [|split; [exact H1|]].
  - exact (proj1 (proj2 (processImageLayer_effect demo.sys fixture.layerB
                           demo.doc fixture.docB "/out/pic_1.svg" [] _ _
                           Hrun))
             "line2" Hin Hnot).
  - apply (proj2 (proj2 (processImageLayer_effect demo.sys fixture.layerB
                           demo.doc fixture.docB "/out/pic_1.svg" [] _ _
                           Hrun))
             1 demo.line1 H1).
    intros id [Hhide|Hshow].
    + apply elem_of_cons in Hhide as [->|Hhide]; [reflexivity|].
      by apply elem_of_nil in Hhide.
    + by apply elem_of_nil in Hshow.
Defined.

Lemma processImage_overwrites_source_witness :
  Filename fixture.plain = "pic" +:+ ".svg"
  ∧ fixture.plainLayer ∈ Layers fixture.plain
  ∧ Suffix fixture.plainLayer = ""
  ∧ processImage fixture.threeSys fixture.plain "/cfg" "/cfg" []
    = (fixture.plainRun.1.1, traceOf fixture.plainRun, Ok ())
  ∧ EvReadFromFile (filepath.Join ["/cfg"; Filename fixture.plain])
      ∈ traceOf fixture.plainRun
  ∧ Wrote (filepath.Join ["/cfg"; Filename fixture.plain])
      ∈ outputs (traceOf fixture.plainRun).
Proof.
  assert (Filename fixture.plain = "pic" +:+ ".svg") as Hname
    by reflexivity.
  assert (fixture.plainLayer ∈ Layers fixture.plain) as Hin
    by (simpl; left).
  assert (processImage fixture.threeSys fixture.plain "/cfg" "/cfg" []
          = (fixture.plainRun.1.1, traceOf fixture.plainRun, Ok ())) as Hrun
    by reflexivity.
  split; [exact Hname|]. split; [exact Hin|]. split; [reflexivity|].
  split; [exact Hrun|].
  exact (processImage_overwrites_source fixture.threeSys fixture.plain
           "/cfg" "pic" ".svg" fixture.plainLayer [] _ _
           Hname eq_refl eq_refl Hin eq_refl Hrun).
Defined.
